(** * Sparse polynomials: the two Python implementations

    [with_2d_list.py] keeps the terms of a polynomial in a list of
    [[coefficient, exponent]] pairs, ascending by exponent;
    [with_dict.py] keeps them in a dict from exponent to coefficient.
    Both classes are called [SparsePolynomial] and offer the same methods.

    The methods are embedded as functions on the [terms] attribute.  A method
    that mutates [self.terms] returns the new value of the attribute; a method
    that can raise returns an [outcome]. *)

From Stdlib Require Import ZArith NArith String Ascii List Floats Lia Bool.
From Stdlib Require Import DecimalString.
From stdpp Require Import base list sorting.

Local Open Scope Z_scope.

(** ** Exceptions and results *)

Inductive exn : Type :=
| TypeError
| ValueError
| KeyError
| IndexError.

(** [Timeout] is not a Python result: it is what a loop of the model answers
    when its fuel runs out.  The lemmas below show that the fuel handed to
    each loop is enough. *)
Inductive outcome (A : Type) : Type :=
| Ok (a : A)
| Raise (e : exn)
| Timeout.

Arguments Ok {A} a.
Arguments Raise {A} e.
Arguments Timeout {A}.

(** Sequencing: what follows a statement runs only if the statement did not
    raise.  The instance gives [x ← m; k] its meaning on [outcome]. *)
#[export] Instance outcome_bind : MBind outcome := fun A B k m =>
  match m with
  | Ok a => k a
  | Raise e => Raise e
  | Timeout => Timeout
  end.

(** ** Numbers

    The classes never fix the type of a coefficient: [add_term] works on any
    Python number.  The parser always hands it a [float]; a direct caller may
    as well pass an [int].  [zero] is the literal [0] of the source as the
    number type reads it, [ne0 c] is the test [c != 0]. *)

Class Number (num : Type) : Type := {
  zero : num;
  add : num -> num -> num;
  ne0 : num -> bool;
  ne0_zero : ne0 zero = false
}.

(** Python's [int]: unbounded integers. *)
#[export] Instance int_number : Number Z := {|
  zero := 0;
  add := Z.add;
  ne0 := fun c => negb (c =? 0);
  ne0_zero := eq_refl
|}.

(** Python's [float]: IEEE 754 binary64, which is what the primitive floats
    are.  [!=] is the IEEE comparison: [-0.0 != 0] is false, [nan != 0] is
    true. *)
#[export] Instance float_number : Number float := {|
  zero := 0%float;
  add := PrimFloat.add;
  ne0 := fun c => negb (PrimFloat.eqb c 0%float);
  ne0_zero := eq_refl
|}.

(** [evaluate] also multiplies and raises to a power.  On [int] both are
    exact.  On [float], [x ** exponent] is whatever the C library's [pow]
    answers, which IEEE 754 does not pin down (and an [OverflowError] where
    that is out of range), so only [int] is an instance; results about
    [evaluate] are stated for any instance. *)
Class Power (num : Type) : Type := {
  mul : num -> num -> num;
  pow : num -> N -> num
}.

#[export] Instance int_power : Power Z := {|
  mul := Z.mul;
  pow := fun x e => Z.pow x (Z.of_N e)
|}.

(** The laws of exact arithmetic that the results on [evaluate] rest on.
    [int] has them.  [float] has them only up to rounding, and not at all
    where an infinity or a nan comes in ([inf * 0.0] is [nan]). *)
Class ExactArith (num : Type) `{Number num} `{Power num} : Prop := {
  add_assoc : forall a b c : num, add a (add b c) = add (add a b) c;
  add_comm : forall a b : num, add a b = add b a;
  add_zero_l : forall a : num, add zero a = a;
  mul_pow_0 : forall c x : num, mul c (pow x 0%N) = c;
  mul_pow_zero : forall (c : num) (e : N), e <> 0%N -> mul c (pow zero e) = zero
}.

(** The spec's "Σ over stored terms of coefficient·x^exponent": the sum of a
    list of numbers, to be taken of the terms' [coefficient * x ** exponent]. *)
Fixpoint total {num : Type} `{Number num} (l : list num) : num :=
  match l with
  | [] => zero
  | a :: rest => add a (total rest)
  end.

(** [str(c)], which is also what an f-string prints for [{c}]. *)
Class Show (num : Type) : Type := {
  str : num -> string
}.

#[export] Instance int_show : Show Z := {|
  str := fun c => NilZero.string_of_int (Z.to_int c)
|}.

(** An exponent in decimal. *)
Definition str_exp (e : N) : string := NilZero.string_of_uint (N.to_uint e).

(** [sep.join(l)] *)
Fixpoint join (sep : string) (l : list string) : string :=
  match l with
  | [] => EmptyString
  | [a] => a
  | a :: rest => (a ++ sep ++ join sep rest)%string
  end.

(** ** Lists as Python has them *)

(** [l[i]]: a negative index counts from the end. *)
Definition getitem {A : Type} (l : list A) (i : Z) : outcome A :=
  let k := if 0 <=? i then i else Z.of_nat (length l) + i in
  if k <? 0 then Raise IndexError
  else match l !! Z.to_nat k with
       | Some a => Ok a
       | None => Raise IndexError
       end.

(** [l[i] = x], with the same reading of the index. *)
Definition setitem {A : Type} (l : list A) (i : Z) (x : A) : outcome (list A) :=
  let k := if 0 <=? i then i else Z.of_nat (length l) + i in
  if k <? 0 then Raise IndexError
  else if k <? Z.of_nat (length l) then Ok (<[Z.to_nat k := x]> l)
  else Raise IndexError.

(** [l[i:]] *)
Definition slice_from {A : Type} (l : list A) (i : Z) : list A :=
  let k := if 0 <=? i then i else Z.max 0 (Z.of_nat (length l) + i) in
  drop (Z.to_nat k) l.

(** [l.insert(i, x)]: the index is clamped to the list. *)
Definition list_insert_at {A : Type} (l : list A) (i : Z) (x : A) : list A :=
  let k := if 0 <=? i then i else Z.max 0 (Z.of_nat (length l) + i) in
  take (Z.to_nat k) l ++ x :: drop (Z.to_nat k) l.

(** ** Text: the builtins the parser calls

    Python strings are sequences of Unicode code points; the model reads
    strings of 8-bit characters, which covers every ASCII input. *)

Module Text.
Local Open Scope char_scope.

Definition is_digit (c : ascii) : bool :=
  ((48 <=? N_of_ascii c) && (N_of_ascii c <=? 57))%N.

Definition digit_value (c : ascii) : N := (N_of_ascii c - 48)%N.

Definition is_sign (c : ascii) : bool := (c =? "+") || (c =? "-").

(** [str.isspace] on one character: tab to carriage return, the four
    separators 28 to 31, and the space. *)
Definition is_space (c : ascii) : bool :=
  let n := N_of_ascii c in
  ((9 <=? n) && (n <=? 13) || (28 <=? n) && (n <=? 31) || (n =? 32))%N.

Definition lower (c : ascii) : ascii :=
  let n := N_of_ascii c in
  if ((65 <=? n) && (n <=? 90))%N then ascii_of_N (n + 32) else c.

(** [s.replace(" ", "")] *)
Fixpoint remove_spaces (s : string) : string :=
  match s with
  | EmptyString => EmptyString
  | String c rest =>
      if c =? " " then remove_spaces rest else String c (remove_spaces rest)
  end.

(** The white space [float] skips around its argument (C's [isspace]):
    [str.isspace] without the four separators. *)
Definition is_c_space (c : ascii) : bool :=
  let n := N_of_ascii c in
  ((9 <=? n) && (n <=? 13) || (n =? 32))%N.

Fixpoint lstrip (space : ascii -> bool) (s : string) : string :=
  match s with
  | EmptyString => EmptyString
  | String c rest => if space c then lstrip space rest else s
  end.

Fixpoint rstrip (space : ascii -> bool) (s : string) : string :=
  match s with
  | EmptyString => EmptyString
  | String c rest =>
      match rstrip space rest with
      | EmptyString => if space c then EmptyString else String c EmptyString
      | kept => String c kept
      end
  end.

(** [s.strip()] *)
Definition strip (s : string) : string := rstrip is_space (lstrip is_space s).

(** [re.split(r'(?=[-+])', s)]: the pattern matches the empty string in front
    of every sign, so [s] is cut there, at its first character too: a string
    that starts with a sign gives an empty first piece.  (Python 3.7 and
    later; before, [re.split] did not cut at empty matches.) *)
Fixpoint split_before_signs (s : string) : list string :=
  match s with
  | EmptyString => [EmptyString]
  | String c rest =>
      match split_before_signs rest with
      | piece :: pieces =>
          if is_sign c then EmptyString :: String c piece :: pieces
          else String c piece :: pieces
      | [] => [String c EmptyString]
      end
  end.

(** *** Regular expressions, as far as the parser's pattern goes

    A backtracking matcher in the order [re] tries things: an optional part
    is tried present before absent, a repetition longest first.  [Group]
    records what its body consumed; the groups of a match are listed in the
    order they close. *)
Inductive regex : Type :=
| Chr (p : ascii -> bool)
| Seq (r1 r2 : regex)
| Opt (r : regex)
| Star (p : ascii -> bool)
| Group (r : regex).

Definition Plus (p : ascii -> bool) : regex := Seq (Chr p) (Star p).

Definition consumed (before after : string) : string :=
  substring 0 (String.length before - String.length after) before.

Fixpoint star_match {R : Type} (p : ascii -> bool) (s : string)
    (k : string -> option R) : option R :=
  match s with
  | EmptyString => k s
  | String c rest =>
      if p c then
        match star_match p rest k with
        | Some r => Some r
        | None => k s
        end
      else k s
  end.

Fixpoint match_from {R : Type} (r : regex) (s : string) (groups : list string)
    (k : string -> list string -> option R) : option R :=
  match r with
  | Chr p =>
      match s with
      | String c rest => if p c then k rest groups else None
      | EmptyString => None
      end
  | Seq r1 r2 =>
      match_from r1 s groups (fun s' groups' => match_from r2 s' groups' k)
  | Opt r1 =>
      match match_from r1 s groups k with
      | Some res => Some res
      | None => k s groups
      end
  | Star p => star_match p s (fun s' => k s' groups)
  | Group r1 =>
      match_from r1 s groups
                 (fun s' groups' => k s' (groups' ++ [consumed s s']))
  end.

(** [re.match(r, s)]: a match at the start of [s], which need not reach its
    end; the answer is the list of groups. *)
Definition re_match (r : regex) (s : string) : option (list string) :=
  match_from r s [] (fun _ groups => Some groups).

(** The pattern of the parser, spaced out as under [re.VERBOSE]:
    [( [-+]? \d* (?: \. \d+ )? ) x \^? ( \d* )]. *)
Definition term_pattern : regex :=
  Seq (Group (Seq (Opt (Chr is_sign))
             (Seq (Star is_digit)
                  (Opt (Seq (Chr (Ascii.eqb ".")) (Plus is_digit))))))
      (Seq (Chr (Ascii.eqb "x"))
           (Seq (Opt (Chr (Ascii.eqb "^")))
                (Group (Star is_digit)))).

(** *** [int] and [float] of a string *)

Fixpoint digits_value (s : string) (acc : N) : option N :=
  match s with
  | EmptyString => Some acc
  | String c rest =>
      if is_digit c then digits_value rest (10 * acc + digit_value c)%N
      else None
  end.

(** [int(s)] for the strings the parser passes: group 2 of the pattern, a run
    of digits that the caller has checked is not empty.  (CPython 3.11 and
    later refuse a run of more than 4300 digits unless told otherwise; that
    limit is left out.) *)
Definition int_of_digits (s : string) : outcome N :=
  match s with
  | EmptyString => Raise ValueError
  | _ => match digits_value s 0 with
         | Some n => Ok n
         | None => Raise ValueError
         end
  end.

(** The nearest binary64 to [n / d], ties to even; beyond the range, an
    infinity. *)
Definition nearest_float (negative : bool) (n d : positive) : float :=
  SF2Prim (SFdiv prec emax (S754_finite negative n 0) (S754_finite false d 0)).

(** The nearest binary64 to [m * 10 ^ e]. *)
Definition decimal_float (negative : bool) (m : N) (e : Z) : float :=
  match m with
  | N0 => if negative then (-0)%float else 0%float
  | Npos p =>
      if (0 <=? e)%Z then nearest_float negative (p * Z.to_pos (10 ^ e)) 1
      else nearest_float negative p (Z.to_pos (10 ^ (- e)))
  end.

(** A [digitpart]: digits, with single underscores allowed between two of
    them.  The answer is the value read so far, the number of digits and
    what is left. *)
Fixpoint digitpart_more (s : string) (acc : N) (count : nat)
  : N * nat * string :=
  match s with
  | String c rest =>
      if is_digit c then
        digitpart_more rest (10 * acc + digit_value c)%N (S count)
      else if c =? "_" then
        match rest with
        | String d rest' =>
            if is_digit d then
              digitpart_more rest' (10 * acc + digit_value d)%N (S count)
            else (acc, count, s)
        | EmptyString => (acc, count, s)
        end
      else (acc, count, s)
  | EmptyString => (acc, count, s)
  end.

Definition digitpart (s : string) (acc : N) : option (N * nat * string) :=
  match s with
  | String c rest =>
      if is_digit c then
        Some (digitpart_more rest (10 * acc + digit_value c)%N 1%nat)
      else None
  | EmptyString => None
  end.

(** [number ::= [digitpart] "." digitpart | digitpart ["."]]: the digits as
    one integer, how many of them follow the point, and what is left. *)
Definition number (s : string) : option (N * nat * string) :=
  match digitpart s 0 with
  | Some (m, _, String "." rest) =>
      match digitpart rest m with
      | Some res => Some res
      | None => Some (m, 0%nat, rest)
      end
  | Some (m, _, rest) => Some (m, 0%nat, rest)
  | None =>
      match s with
      | String "." rest => digitpart rest 0
      | _ => None
      end
  end.

(** [exponent ::= ("e" | "E") [sign] digitpart], or nothing. *)
Definition exponent_part (s : string) : option Z :=
  match s with
  | EmptyString => Some 0%Z
  | String c rest =>
      if lower c =? "e" then
        let '(negative, digits) :=
          match rest with
          | String "-" r => (true, r)
          | String "+" r => (false, r)
          | _ => (false, rest)
          end in
        match digitpart digits 0 with
        | Some (e, _, EmptyString) =>
            Some (if negative then - Z.of_N e else Z.of_N e)%Z
        | _ => None
        end
      else None
  end.

Definition lower_string (s : string) : string :=
  string_of_list_ascii (map lower (list_ascii_of_string s)).

(** [float(s)] as the language reference gives it: white space around is
    dropped, then comes a sign, then [inf], [infinity] or [nan] in any case,
    or a decimal number with an optional exponent.  Anything else is a
    [ValueError]; a number too large is an infinity. *)
Definition float_of_string (s : string) : outcome float :=
  let s := rstrip is_c_space (lstrip is_c_space s) in
  let '(negative, body) :=
    match s with
    | String "-" r => (true, r)
    | String "+" r => (false, r)
    | _ => (false, s)
    end in
  let word := lower_string body in
  if (word =? "inf")%string || (word =? "infinity")%string then
    Ok (if negative then neg_infinity else infinity)
  else if (word =? "nan")%string then Ok nan
  else
    match number body with
    | Some (m, frac, rest) =>
        match exponent_part rest with
        | Some e => Ok (decimal_float negative m (e - Z.of_nat frac))
        | None => Raise ValueError
        end
    | None => Raise ValueError
    end.

(** The body of the loop of [parse_polynomial_string] up to the call of
    [add_term]: the coefficient and the exponent read from one piece. *)
Definition parse_term (term : string) : outcome (float * N) :=
  let term := strip term in
  match re_match term_pattern term with
  | Some [group1; group2] =>
      coefficient ← float_of_string group1;
      exponent ← match group2 with
                 | EmptyString => Ok 1%N
                 | _ => int_of_digits group2
                 end;
      Ok (coefficient, exponent)
  | _ =>
      coefficient ← float_of_string term;
      Ok (coefficient, 0%N)
  end.

(** The pieces the loop runs over. *)
Definition pieces (polynomial_str : string) : list string :=
  split_before_signs (remove_spaces polynomial_str).

End Text.

(** ** with_2d_list.py *)

Module with_2d_list.

(** One entry of [self.terms]: [[coefficient, exponent]]. *)
Abbreviation term num := (num * N)%type.

Section Store.
Context {num : Type} `{Number num}.
Abbreviation term := (term num).

Definition coeff (t : term) : num := fst t.
Definition expo (t : term) : N := snd t.

(** The binary search that [add_term] and [find_coefficient] both run:

    [[
      while left <= right:
          mid = (left + right) // 2
          if self.terms[mid][1] == n: (found at mid)
          elif self.terms[mid][1] < n: left = mid + 1
          else: right = mid - 1
      (not found; left is where n belongs)
    ]]

    [Z.div] rounds down, as [//] does. *)
Inductive probe : Type :=
| Hit (mid : Z)
| Miss (ins : Z).

Fixpoint search (fuel : nat) (terms : list term) (n : N) (left right : Z)
  : outcome probe :=
  match fuel with
  | O => Timeout
  | S fuel' =>
      if left <=? right then
        let mid := (left + right) / 2 in
        t ← getitem terms mid;
        if (expo t =? n)%N then Ok (Hit mid)
        else if (expo t <? n)%N then search fuel' terms n (mid + 1) right
        else search fuel' terms n left (mid - 1)
      else Ok (Miss left)
  end.

(** Each round shrinks [right - left] and the search starts on the whole
    list, so one round more than there are terms is enough. *)
Definition search_terms (terms : list term) (n : N) : outcome probe :=
  search (S (length terms)) terms n 0 (Z.of_nat (length terms) - 1).

(** [add_term]: with a non-zero coefficient, either [self.terms[mid][0] +=
    coefficient] where the exponent was found, or (the [else] of the [while])
    [self.terms.insert(left, [coefficient, exponent])]. *)
Definition add_term (terms : list term) (coefficient : num) (exponent : N)
  : outcome (list term) :=
  if ne0 coefficient then
    p ← search_terms terms exponent;
    match p with
    | Hit mid =>
        t ← getitem terms mid;
        setitem terms mid (add (coeff t) coefficient, expo t)
    | Miss ins => Ok (list_insert_at terms ins (coefficient, exponent))
    end
  else Ok terms.

(** [find_coefficient]: the same search; [0] when it ends without a hit. *)
Definition find_coefficient (terms : list term) (n : N) : outcome num :=
  p ← search_terms terms n;
  match p with
  | Hit mid => t ← getitem terms mid; Ok (coeff t)
  | Miss _ => Ok zero
  end.

(** The order the class keeps [self.terms] in: exponents strictly ascending,
    each one below all that follow. *)
Definition exp_lt (t1 t2 : term) : Prop := (expo t1 < expo t2)%N.

#[export] Instance exp_lt_dec (t1 t2 : term) : Decision (exp_lt t1 t2) :=
  N.lt_dec (expo t1) (expo t2).

Definition ascending (terms : list term) : Prop := StronglySorted exp_lt terms.

(** A run of [add_term] calls, each on what the one before left. *)
Fixpoint add_terms (terms : list term) (calls : list (num * N))
  : outcome (list term) :=
  match calls with
  | [] => Ok terms
  | (coefficient, exponent) :: rest =>
      terms' ← add_term terms coefficient exponent;
      add_terms terms' rest
  end.

(** [evaluate]: the loop adds [coefficient * (x ** exponent)] to [result],
    term after term, from [result = 0]. *)
Definition evaluate `{Power num} (terms : list term) (x : num) : num :=
  fold_left (fun result t => add result (mul (coeff t) (pow x (expo t))))
            terms zero.

(** What [__add__] may be handed: another polynomial (its [terms]), or a plain
    list, which is what the last statement of [__add__] itself passes. *)
Inductive operand : Type :=
| Polynomial (terms : list term)
| PyList (items : list term).

(** The [while] of [__add__]; [result] is [result.terms]. *)
Fixpoint merge (fuel : nat) (self other result : list term) (i j : Z)
  : outcome (list term * Z * Z) :=
  match fuel with
  | O => Timeout
  | S fuel' =>
      if (i <? Z.of_nat (length self)) && (j <? Z.of_nat (length other)) then
        t1 ← getitem self i;
        t2 ← getitem other j;
        let '(coeff1, exp1) := t1 in
        let '(coeff2, exp2) := t2 in
        if (exp1 =? exp2)%N then
          r ← add_term result (add coeff1 coeff2) exp1;
          merge fuel' self other r (i + 1) (j + 1)
        else if (exp1 <? exp2)%N then
          r ← add_term result coeff1 exp1;
          merge fuel' self other r (i + 1) j
        else
          r ← add_term result coeff2 exp2;
          merge fuel' self other r i (j + 1)
      else Ok (result, i, j)
  end.

(** The spec's merge of two ascending sequences: "when exponents match,
    terms are summed and both cursors advance; when they differ, the
    smaller-exponent term is emitted and its cursor advances; after one
    sequence is exhausted, the remainder of the other is appended
    unchanged". *)
Fixpoint merged (l1 : list term) : list term -> list term :=
  fix merged_l1 (l2 : list term) : list term :=
    match l1, l2 with
    | [], _ => l2
    | _, [] => l1
    | (coeff1, exp1) :: rest1, (coeff2, exp2) :: rest2 =>
        if (exp1 =? exp2)%N then
          (add coeff1 coeff2, exp1) :: merged rest1 rest2
        else if (exp1 <? exp2)%N then (coeff1, exp1) :: merged rest1 l2
        else (coeff2, exp2) :: merged_l1 rest2
    end.

(** The terms that get past the guard of [add_term]. *)
Definition stored (l : list term) : list term :=
  filter (fun t => ne0 (coeff t) = true) l.

(** [__add__].  Its last statement before [return result] is

    [[
      result += self.terms[i:] + other.terms[j:]
    ]]

    The class defines no [__iadd__], so Python runs this as
    [result = result.__add__(<that list>)]: a second call of [__add__], whose
    [isinstance] test the list fails.  [calls] bounds the depth of such
    calls; the merge loop gets one round per term of both lists, and one
    more. *)
Fixpoint __add__ (calls : nat) (self : list term) (other : operand)
  : outcome (list term) :=
  match calls with
  | O => Timeout
  | S calls' =>
      match other with
      | PyList _ => Raise TypeError
      | Polynomial others =>
          '(result, i, j) ←
            merge (S (length self + length others)) self others [] 0 0;
          __add__ calls' result
                  (PyList (slice_from self i ++ slice_from others j))
      end
  end.

(** [__str__] *)
Definition __str__ `{Show num} (terms : list term) : string :=
  let terms_str :=
    map (fun t => if (0 <? expo t)%N
                  then (str (coeff t) ++ "x^" ++ str_exp (expo t))%string
                  else str (coeff t)) terms in
  join " + " (rev terms_str).

End Store.

(** The parser works on [float] coefficients. *)

(** The [for term in terms:] loop of [parse_polynomial_string]. *)
Fixpoint parse_pieces (terms : list (term float)) (pieces : list string)
  : outcome (list (term float)) :=
  match pieces with
  | [] => Ok terms
  | piece :: rest =>
      '(coefficient, exponent) ← Text.parse_term piece;
      terms' ← add_term terms coefficient exponent;
      parse_pieces terms' rest
  end.

Definition parse_polynomial_string (terms : list (term float))
    (polynomial_str : string) : outcome (list (term float)) :=
  parse_pieces terms (Text.pieces polynomial_str).

(** [SparsePolynomial(polynomial_str)]: the [terms] of the new object. *)
Definition __init__ (polynomial_str : string) : outcome (list (term float)) :=
  match polynomial_str with
  | EmptyString => Ok []
  | _ => parse_polynomial_string [] polynomial_str
  end.

End with_2d_list.

(** ** with_dict.py

    A Python dict keeps its keys in the order they were first set.  It is
    modelled as the list of its items in that order, without repeated keys. *)

Section Dict.
Context {K V : Type} `{EqDecision K}.

Abbreviation dict := (list (K * V)).

(** [d.get(k)] *)
Fixpoint dict_get (d : dict) (k : K) : option V :=
  match d with
  | [] => None
  | (k', v) :: rest => if decide (k' = k) then Some v else dict_get rest k
  end.

(** [k in d] *)
Definition dict_in (d : dict) (k : K) : bool :=
  match dict_get d k with Some _ => true | None => false end.

(** [d[k]] *)
Definition dict_getitem (d : dict) (k : K) : outcome V :=
  match dict_get d k with
  | Some v => Ok v
  | None => Raise KeyError
  end.

(** [d[k] = v]: a key already there keeps its place. *)
Fixpoint dict_setitem (d : dict) (k : K) (v : V) : dict :=
  match d with
  | [] => [(k, v)]
  | (k', v') :: rest =>
      if decide (k' = k) then (k', v) :: rest
      else (k', v') :: dict_setitem rest k v
  end.

End Dict.

Module with_dict.

(** [self.terms]: exponent to coefficient. *)
Abbreviation terms_dict num := (list (N * num)).

Section Store.
Context {num : Type} `{Number num}.
Abbreviation terms_dict := (terms_dict num).

Definition add_term (terms : terms_dict) (coefficient : num) (exponent : N)
  : outcome terms_dict :=
  if ne0 coefficient then
    if dict_in terms exponent then
      old ← dict_getitem terms exponent;
      Ok (dict_setitem terms exponent (add old coefficient))
    else Ok (dict_setitem terms exponent coefficient)
  else Ok terms.

Definition evaluate `{Power num} (terms : terms_dict) (x : num) : num :=
  fold_left (fun result '(exponent, coefficient) =>
               add result (mul coefficient (pow x exponent)))
            terms zero.

Inductive operand : Type :=
| Polynomial (terms : terms_dict)
| NotPolynomial.

(** One [for exponent, coefficient in ....items(): result.add_term(...)]. *)
Fixpoint add_items (result : terms_dict) (items : list (N * num))
  : outcome terms_dict :=
  match items with
  | [] => Ok result
  | (exponent, coefficient) :: rest =>
      r ← add_term result coefficient exponent;
      add_items r rest
  end.

Definition __add__ (self : terms_dict) (other : operand)
  : outcome terms_dict :=
  match other with
  | NotPolynomial => Raise TypeError
  | Polynomial others =>
      r ← add_items [] self;
      add_items r others
  end.

Definition find_coefficient (terms : terms_dict) (n : N) : outcome num :=
  dict_getitem terms n.

Definition __str__ `{Show num} (terms : terms_dict) : string :=
  let terms_str :=
    map (fun '(e, c) => if (0 <? e)%N
                        then (str c ++ "x^" ++ str_exp e)%string
                        else str c) terms in
  join " + " terms_str.

End Store.

(** The parser is the one of [with_2d_list.py], word for word, but for a
    [print(terms)] of the pieces, which changes no value. *)
Fixpoint parse_pieces (terms : terms_dict float) (pieces : list string)
  : outcome (terms_dict float) :=
  match pieces with
  | [] => Ok terms
  | piece :: rest =>
      '(coefficient, exponent) ← Text.parse_term piece;
      terms' ← add_term terms coefficient exponent;
      parse_pieces terms' rest
  end.

Definition parse_polynomial_string (terms : terms_dict float)
    (polynomial_str : string) : outcome (terms_dict float) :=
  parse_pieces terms (Text.pieces polynomial_str).

Definition __init__ (polynomial_str : string) : outcome (terms_dict float) :=
  match polynomial_str with
  | EmptyString => Ok []
  | _ => parse_polynomial_string [] polynomial_str
  end.

End with_dict.

(** ** The example the two files end with

    [[
      polynomial_str1 = "2.1x^8 + 30x^9 + 3x + 10 + 10x^9 + 1 - 10"
      sp1 = SparsePolynomial(polynomial_str1)
    ]] *)
Definition polynomial_str1 : string :=
  "2.1x^8 + 30x^9 + 3x + 10 + 10x^9 + 1 - 10".

(** ** Reading a store by exponent *)

(** The terms of the list strategy as the dict strategy would hold them:
    (exponent, coefficient) items, in storage order; and the other way
    round. *)
Definition items {A B : Type} (terms : list (A * B)) : list (B * A) :=
  map (fun t => (snd t, fst t)) terms.

(** What one [add_term(c, e)] makes of the coefficient stored at [e]: it is
    left alone when [c == 0]; else [c] is added to it, or stored when there
    was none. *)
Definition bump {num : Type} `{Number num} (old : option num) (c : num)
  : option num :=
  if ne0 c then Some (match old with Some c0 => add c0 c | None => c end)
  else old.

(** What a run of [add_term] calls makes of the coefficient stored at [e]:
    the calls for [e] bump it one after the other. *)
Definition accumulated {num : Type} `{Number num} (calls : list (num * N))
    (e : N) (start : option num) : option num :=
  fold_left (fun acc call => if (snd call =? e)%N then bump acc (fst call)
                             else acc) calls start.

(** [bump] by a coefficient that may be missing. *)
Definition bump_with {num : Type} `{Number num} (old : option num)
    (c : option num) : option num :=
  match c with
  | Some c => bump old c
  | None => old
  end.

(** Exact arithmetic in which, moreover, multiplication distributes over
    addition and [c != 0] is false of 0 only.  [int] has these laws. *)
Class RingArith (num : Type) `{Number num} `{Power num} : Prop := {
  ring_exact :: ExactArith num;
  mul_add_l : forall a b p : num, mul (add a b) p = add (mul a p) (mul b p);
  mul_zero_l : forall p : num, mul zero p = zero;
  ne0_false : forall c : num, ne0 c = false -> c = zero
}.

(** Every character of [s] is of the class [p]. *)
Fixpoint all_chars (p : ascii -> bool) (s : string) : bool :=
  match s with
  | EmptyString => true
  | String c rest => p c && all_chars p rest
  end.

(** * Properties *)

(** ** Lists *)

Section ListFacts.
Context {A : Type}.
Implicit Types (l : list A) (i : Z).

Lemma getitem_lookup l i a :
  0 <= i -> l !! Z.to_nat i = Some a -> getitem l i = Ok a.
Proof.
  intros Hi Hl. unfold getitem.
  destruct (Z.leb_spec 0 i); [|lia].
  destruct (Z.ltb_spec i 0); [lia|]. by rewrite Hl.
Qed.

Lemma getitem_in_range l i :
  0 <= i < Z.of_nat (length l) ->
  exists a, l !! Z.to_nat i = Some a /\ getitem l i = Ok a.
Proof.
  intros Hi.
  destruct (lookup_lt_is_Some_2 l (Z.to_nat i)) as [a Ha]; [lia|].
  exists a. split; [done|]. apply getitem_lookup; [lia|done].
Qed.

Lemma setitem_in_range l i x :
  0 <= i < Z.of_nat (length l) ->
  setitem l i x = Ok (<[Z.to_nat i := x]> l).
Proof.
  intros Hi. unfold setitem.
  destruct (Z.leb_spec 0 i); [|lia].
  destruct (Z.ltb_spec i 0); [lia|].
  destruct (Z.ltb_spec i (Z.of_nat (length l))); [done|lia].
Qed.

Lemma list_insert_at_nonneg l i x :
  0 <= i ->
  list_insert_at l i x = take (Z.to_nat i) l ++ x :: drop (Z.to_nat i) l.
Proof.
  intros Hi. unfold list_insert_at. by destruct (Z.leb_spec 0 i); [|lia].
Qed.

Lemma strongly_sorted_lookup (R : relation A) l (i j : nat) a b :
  StronglySorted R l -> l !! i = Some a -> l !! j = Some b -> (i < j)%nat ->
  R a b.
Proof.
  intros Hs Ha Hb Hij.
  rewrite <- (take_drop j l) in Hs.
  eapply StronglySorted_app_1_elem_of; [exact Hs| |].
  - apply list_elem_of_lookup. exists i. by rewrite lookup_take_lt.
  - apply list_elem_of_lookup. exists 0%nat.
    by rewrite lookup_drop, Nat.add_0_r.
Qed.

Lemma fold_left_pointwise {B : Type} (f g : B -> A -> B) l :
  (forall b a, f b a = g b a) -> forall b, fold_left f l b = fold_left g l b.
Proof.
  intros Hfg. induction l as [|a l IH]; intros b; simpl; [done|].
  by rewrite Hfg, IH.
Qed.

End ListFacts.

(** ** The binary search of with_2d_list.py *)

Section Search.
Context {num : Type} `{Number num}.
Import with_2d_list.
Implicit Types (terms : list (term num)) (n : N).

(** The probe lies between the two bounds. *)
Lemma mid_between (left right : Z) :
  left <= right -> left <= (left + right) / 2 <= right.
Proof.
  intros Hlr. split.
  - apply Z.div_le_lower_bound; lia.
  - apply Z.div_le_upper_bound; lia.
Qed.

(** On any list, with bounds inside it and fuel for each index between them,
    the search ends: on a hit at an index that holds the exponent, or on a
    miss between the bounds. *)
Lemma search_ends fuel terms n (left right : Z) :
  0 <= left -> right < Z.of_nat (length terms) ->
  Z.max 0 (right - left + 1) < Z.of_nat fuel ->
  (exists mid t, search fuel terms n left right = Ok (Hit mid) /\
      left <= mid <= right /\ terms !! Z.to_nat mid = Some t /\ expo t = n) \/
  (exists ins, search fuel terms n left right = Ok (Miss ins) /\
      left <= ins /\ ins <= Z.max left (right + 1)).
Proof.
  revert left right. induction fuel as [|fuel IH]; intros left right Hl Hr Hf.
  { lia. }
  simpl. destruct (Z.leb_spec left right) as [Hle|Hgt].
  - pose proof (mid_between left right Hle) as Hmid.
    destruct (getitem_in_range terms ((left + right) / 2)) as (t & Ht & ->);
      [lia|].
    simpl. destruct (N.eqb_spec (expo t) n) as [Heq|Hne].
    + left. exists ((left + right) / 2), t. auto.
    + destruct (N.ltb_spec (expo t) n).
      * destruct (IH ((left + right) / 2 + 1) right) as
          [(mid & t' & -> & ? & ? & ?)|(ins & -> & ? & ?)]; [lia..| |].
        -- left. exists mid, t'. repeat split; [lia|lia|done|done].
        -- right. exists ins. repeat split; lia.
      * destruct (IH left ((left + right) / 2 - 1)) as
          [(mid & t' & -> & ? & ? & ?)|(ins & -> & ? & ?)]; [lia..| |].
        -- left. exists mid, t'. repeat split; [lia|lia|done|done].
        -- right. exists ins. repeat split; lia.
  - right. exists left. repeat split; lia.
Qed.

(** On an ascending list the miss is exact: every term before the insertion
    point has a smaller exponent, every term from it on a larger one. *)
Lemma search_miss_ascending fuel terms n (left right ins : Z) :
  ascending terms ->
  0 <= left -> right < Z.of_nat (length terms) ->
  (forall (k : nat) t, terms !! k = Some t -> Z.of_nat k < left ->
                       (expo t < n)%N) ->
  (forall (k : nat) t, terms !! k = Some t -> right < Z.of_nat k ->
                       (n < expo t)%N) ->
  search fuel terms n left right = Ok (Miss ins) ->
  (forall (k : nat) t, terms !! k = Some t -> Z.of_nat k < ins ->
                       (expo t < n)%N) /\
  (forall (k : nat) t, terms !! k = Some t -> ins <= Z.of_nat k ->
                       (n < expo t)%N).
Proof.
  intros Hs. revert left right.
  induction fuel as [|fuel IH]; intros left right Hl Hr Hlo Hhi; [done|].
  simpl. destruct (Z.leb_spec left right) as [Hle|Hgt].
  - pose proof (mid_between left right Hle) as Hmid.
    destruct (getitem_in_range terms ((left + right) / 2)) as (t & Ht & ->);
      [lia|].
    simpl. destruct (N.eqb_spec (expo t) n) as [Heq|Hne]; [done|].
    destruct (N.ltb_spec (expo t) n) as [Hlt|Hge].
    + apply IH; [lia|lia| |done].
      intros k t' Hk Hlt'.
      destruct (decide (k = Z.to_nat ((left + right) / 2))) as [->|Hne'].
      * by simplify_eq.
      * assert (exp_lt t' t) as Hord; [|unfold exp_lt in Hord; lia].
        eapply strongly_sorted_lookup; [exact Hs|exact Hk|exact Ht|lia].
    + apply IH; [lia|lia|done|].
      intros k t' Hk Hlt'.
      destruct (decide (k = Z.to_nat ((left + right) / 2))) as [->|Hne'].
      * simplify_eq. lia.
      * assert (exp_lt t t') as Hord; [|unfold exp_lt in Hord; lia].
        eapply strongly_sorted_lookup; [exact Hs|exact Ht|exact Hk|lia].
  - intros [= <-]. split.
    + done.
    + intros k t Hk Hge. apply (Hhi k t Hk). lia.
Qed.

(** The search of a whole list, as the two methods start it. *)
Lemma search_terms_ends terms n :
  (exists mid t, search_terms terms n = Ok (Hit mid) /\
      0 <= mid < Z.of_nat (length terms) /\
      terms !! Z.to_nat mid = Some t /\ expo t = n) \/
  (exists ins, search_terms terms n = Ok (Miss ins) /\
      0 <= ins <= Z.of_nat (length terms)).
Proof.
  unfold search_terms.
  destruct (search_ends (S (length terms)) terms n 0
              (Z.of_nat (length terms) - 1)) as
    [(mid & t & Hs & ? & ? & ?)|(ins & Hs & ? & ?)]; [lia..| |].
  - left. exists mid, t. repeat split; [done|lia|lia|done|done].
  - right. exists ins. repeat split; [done|lia|lia].
Qed.

Lemma search_terms_miss terms n ins :
  ascending terms ->
  search_terms terms n = Ok (Miss ins) ->
  (forall (k : nat) t, terms !! k = Some t -> Z.of_nat k < ins ->
                       (expo t < n)%N) /\
  (forall (k : nat) t, terms !! k = Some t -> ins <= Z.of_nat k ->
                       (n < expo t)%N).
Proof.
  intros Hs Hm. eapply search_miss_ascending; [exact Hs| | | | |exact Hm].
  - lia.
  - lia.
  - intros; lia.
  - intros k t Hk Hlt. apply lookup_lt_Some in Hk. lia.
Qed.

(** On an ascending list that holds the exponent, the search hits it. *)
Lemma search_terms_hit terms n (i : nat) t :
  ascending terms ->
  terms !! i = Some t -> expo t = n ->
  search_terms terms n = Ok (Hit (Z.of_nat i)).
Proof.
  intros Hs Hi He.
  destruct (search_terms_ends terms n) as
    [(mid & t' & Hm & Hmid & Ht' & He')|(ins & Hm & Hins)].
  - rewrite Hm. do 2 f_equal.
    destruct (Z.lt_trichotomy (Z.of_nat i) mid) as [Hlt|[Heq|Hgt]]; [|done|].
    + assert (exp_lt t t') as Hord; [|unfold exp_lt in Hord; lia].
      eapply strongly_sorted_lookup; [exact Hs|exact Hi|exact Ht'|lia].
    + assert (exp_lt t' t) as Hord; [|unfold exp_lt in Hord; lia].
      eapply strongly_sorted_lookup; [exact Hs|exact Ht'|exact Hi|lia].
  - destruct (search_terms_miss terms n ins Hs Hm) as [Hlo Hhi].
    destruct (Z.lt_ge_cases (Z.of_nat i) ins) as [Hlt|Hge].
    + specialize (Hlo i t Hi Hlt). lia.
    + specialize (Hhi i t Hi Hge). lia.
Qed.

End Search.

(** ** add_term and find_coefficient of with_2d_list.py *)

Section OrderedStore.
Context {num : Type} `{Number num}.
Import with_2d_list.
Implicit Types (terms : list (term num)) (e n : N) (c : num).

Lemma ascending_nil : ascending (@nil (term num)).
Proof. constructor. Qed.

(** Only the exponents matter for the order. *)
Lemma ascending_replace (l1 l2 : list (term num)) t t' :
  expo t' = expo t ->
  ascending (l1 ++ t :: l2) -> ascending (l1 ++ t' :: l2).
Proof.
  unfold ascending. rewrite !StronglySorted_app, !StronglySorted_cons.
  intros He (Hx & Hl1 & Ht & Hl2). repeat split; [|done| |done].
  - intros x1 x2 Hx1 Hx2. apply elem_of_cons in Hx2 as [->|Hx2].
    + unfold exp_lt. rewrite He. apply (Hx x1 t); [done|]. apply elem_of_cons; auto.
    + apply Hx; [done|]. apply elem_of_cons; auto.
  - eapply Forall_impl; [exact Ht|]. unfold exp_lt. intros; lia.
Qed.

Lemma ascending_insert terms (k : nat) t :
  ascending terms ->
  (forall (i : nat) t', terms !! i = Some t' -> (i < k)%nat ->
                        (expo t' < expo t)%N) ->
  (forall (i : nat) t', terms !! i = Some t' -> (k <= i)%nat ->
                        (expo t < expo t')%N) ->
  ascending (take k terms ++ t :: drop k terms).
Proof.
  intros Hs Hlo Hhi. unfold ascending in *.
  rewrite <- (take_drop k terms) in Hs.
  apply StronglySorted_app in Hs as (Hx & Hl1 & Hl2).
  assert (Forall (exp_lt t) (drop k terms)) as Hdrop.
  { apply Forall_lookup. intros i t' Hi. rewrite lookup_drop in Hi.
    apply (Hhi _ _ Hi). lia. }
  apply StronglySorted_app. repeat split; [|done|].
  - intros x1 x2 Hx1 Hx2. apply elem_of_cons in Hx2 as [->|Hx2].
    + apply list_elem_of_lookup in Hx1 as [i Hi].
      apply lookup_take_Some in Hi as [Hi Hik]. exact (Hlo _ _ Hi Hik).
    + by apply Hx.
  - by apply StronglySorted_cons.
Qed.

(** The exponents of an ascending list are pairwise distinct. *)
Lemma ascending_NoDup terms : ascending terms -> NoDup (map expo terms).
Proof.
  unfold ascending. induction 1 as [|t l Hl IH Hall]; simpl.
  - constructor.
  - constructor; [|done]. intros Hin.
    apply list_elem_of_In, in_map_iff in Hin as (t' & He & Hin).
    rewrite Forall_forall in Hall.
    apply list_elem_of_In, Hall in Hin. unfold exp_lt in Hin. lia.
Qed.

(** [add_term] on a term that is there: its coefficient grows, nothing else
    changes. *)
Lemma add_term_present terms c e (i : nat) c0 :
  ascending terms -> ne0 c = true -> terms !! i = Some (c0, e) ->
  add_term terms c e = Ok (<[i := (add c0 c, e)]> terms).
Proof.
  intros Hs Hc Hi. unfold add_term. rewrite Hc.
  rewrite (search_terms_hit terms e i (c0, e) Hs Hi eq_refl). simpl.
  rewrite (getitem_lookup terms (Z.of_nat i) (c0, e));
    [|lia|by rewrite Nat2Z.id].
  simpl. rewrite setitem_in_range; [by rewrite Nat2Z.id|].
  apply lookup_lt_Some in Hi. lia.
Qed.

(** [add_term] always returns, and keeps an ascending list ascending. *)
Lemma add_term_ascending terms c e :
  ascending terms ->
  exists terms', add_term terms c e = Ok terms' /\ ascending terms'.
Proof.
  intros Hs. unfold add_term. destruct (ne0 c); [|by exists terms].
  destruct (search_terms_ends terms e) as
    [(mid & t & Hm & Hmid & Ht & He)|(ins & Hm & Hins)]; rewrite Hm; simpl.
  - rewrite (getitem_lookup terms mid t); [|lia|done]. simpl.
    rewrite setitem_in_range; [|lia]. eexists. split; [done|].
    rewrite insert_take_drop; [|lia].
    apply (ascending_replace _ _ t); [done|].
    by rewrite take_drop_middle.
  - rewrite list_insert_at_nonneg; [|lia]. eexists. split; [done|].
    destruct (search_terms_miss terms e ins Hs Hm) as [Hlo Hhi].
    apply ascending_insert; [done| |].
    + intros i t' Hi Hlt. apply (Hlo i t' Hi). lia.
    + intros i t' Hi Hge. apply (Hhi i t' Hi). lia.
Qed.

Lemma add_terms_ascending calls : forall terms,
  ascending terms ->
  exists terms', add_terms terms calls = Ok terms' /\ ascending terms'.
Proof.
  induction calls as [|[c e] calls IH]; intros terms Hs; simpl.
  - by exists terms.
  - destruct (add_term_ascending terms c e Hs) as (terms1 & -> & Hs1).
    simpl. by apply IH.
Qed.

(** [find_coefficient] of an exponent no term has: the search can only miss. *)
Lemma find_coefficient_absent terms n :
  (forall t, t ∈ terms -> expo t <> n) ->
  find_coefficient terms n = Ok zero.
Proof.
  intros Habs. unfold find_coefficient.
  destruct (search_terms_ends terms n) as
    [(mid & t & Hm & Hmid & Ht & He)|(ins & Hm & Hins)]; rewrite Hm; simpl.
  - exfalso. apply (Habs t); [|done]. apply list_elem_of_lookup. eauto.
  - done.
Qed.

(** [find_coefficient] of an exponent that is there, on an ascending list. *)
Lemma find_coefficient_present terms n (i : nat) c0 :
  ascending terms -> terms !! i = Some (c0, n) ->
  find_coefficient terms n = Ok c0.
Proof.
  intros Hs Hi. unfold find_coefficient.
  rewrite (search_terms_hit terms n i (c0, n) Hs Hi eq_refl). simpl.
  rewrite (getitem_lookup terms (Z.of_nat i) (c0, n));
    [done|lia|by rewrite Nat2Z.id].
Qed.

End OrderedStore.

(** ** The dict of with_dict.py *)

Section DictFacts.
Context {K V : Type} `{EqDecision K}.
Implicit Types (d : list (K * V)) (k : K) (v : V).

Lemma dict_get_absent d k :
  (forall kv, kv ∈ d -> fst kv <> k) -> dict_get d k = None.
Proof.
  induction d as [|[k' v'] d IH]; intros Habs; simpl; [done|].
  destruct (decide (k' = k)) as [->|Hne].
  - exfalso. apply (Habs (k, v')); [left|done].
  - apply IH. intros kv Hin. apply Habs. by right.
Qed.

Lemma dict_get_setitem d k v : dict_get (dict_setitem d k v) k = Some v.
Proof.
  induction d as [|[k' v'] d IH]; simpl.
  - by rewrite decide_True.
  - destruct (decide (k' = k)) as [->|Hne]; simpl.
    + by rewrite decide_True.
    + by rewrite decide_False.
Qed.

Lemma dict_get_setitem_ne d k k' v :
  k' <> k -> dict_get (dict_setitem d k v) k' = dict_get d k'.
Proof.
  intros Hne. induction d as [|[k1 v1] d IH]; simpl.
  - by rewrite decide_False.
  - destruct (decide (k1 = k)) as [->|Hne1]; simpl.
    + by rewrite !decide_False.
    + destruct (decide (k1 = k')); [done|apply IH].
Qed.

(** Setting a key that is there changes neither the keys nor their order. *)
Lemma dict_setitem_keys d k v v0 :
  dict_get d k = Some v0 -> map fst (dict_setitem d k v) = map fst d.
Proof.
  induction d as [|[k' v'] d IH]; simpl; [done|].
  destruct (decide (k' = k)) as [->|Hne]; simpl; [done|].
  intros Hg. by rewrite IH.
Qed.

(** Setting a key that is not there appends it. *)
Lemma dict_setitem_new d k v :
  dict_get d k = None -> dict_setitem d k v = d ++ [(k, v)].
Proof.
  induction d as [|[k' v'] d IH]; simpl; [done|].
  destruct (decide (k' = k)) as [->|Hne]; [done|].
  intros Hg. by rewrite IH.
Qed.

Lemma dict_get_None_keys d k : dict_get d k = None -> k ∉ map fst d.
Proof.
  induction d as [|[k' v'] d IH]; simpl.
  - intros _ Hin. by apply elem_of_nil in Hin.
  - destruct (decide (k' = k)) as [->|Hne]; [done|].
    intros Hg Hin. apply elem_of_cons in Hin as [->|Hin]; [done|].
    by apply IH.
Qed.

(** The keys of a dict stay distinct. *)
Lemma dict_setitem_NoDup d k v :
  NoDup (map fst d) -> NoDup (map fst (dict_setitem d k v)).
Proof.
  intros Hnd. destruct (dict_get d k) as [v0|] eqn:Hg.
  - by rewrite (dict_setitem_keys d k v v0).
  - rewrite dict_setitem_new, map_app by done. simpl.
    apply NoDup_app. repeat split; [done| |apply NoDup_singleton].
    intros x Hx Hx'. apply list_elem_of_singleton in Hx' as ->.
    by apply dict_get_None_keys in Hg.
Qed.


End DictFacts.

Section DictStore.
Context {num : Type} `{Number num}.
Import with_dict.
Implicit Types (terms : list (N * num)) (e n : N) (c : num).

(** [add_term] never raises: the key it reads is one it has just found. *)
Lemma dict_add_term_returns terms c e :
  add_term terms c e =
  Ok (if ne0 c then
        match dict_get terms e with
        | Some old => dict_setitem terms e (add old c)
        | None => dict_setitem terms e c
        end
      else terms).
Proof.
  unfold add_term, dict_in, dict_getitem.
  destruct (ne0 c); [|done]. by destruct (dict_get terms e).
Qed.

Lemma dict_add_term_present terms c e c0 :
  ne0 c = true -> dict_get terms e = Some c0 ->
  add_term terms c e = Ok (dict_setitem terms e (add c0 c)).
Proof. intros Hc Hg. by rewrite dict_add_term_returns, Hc, Hg. Qed.

Lemma dict_add_term_NoDup terms c e terms' :
  NoDup (map fst terms) -> add_term terms c e = Ok terms' ->
  NoDup (map fst terms').
Proof.
  rewrite dict_add_term_returns. intros Hnd [= <-].
  destruct (ne0 c); [|done].
  destruct (dict_get terms e); by apply dict_setitem_NoDup.
Qed.

Lemma add_items_returns items : forall terms,
  exists terms', add_items terms items = Ok terms'.
Proof.
  induction items as [|[e c] items IH]; intros terms; simpl.
  - by exists terms.
  - rewrite dict_add_term_returns. simpl. apply IH.
Qed.

Lemma dict_add_returns terms others :
  exists result, __add__ terms (Polynomial others) = Ok result.
Proof.
  unfold __add__. destruct (add_items_returns terms []) as [r ->]. simpl.
  apply add_items_returns.
Qed.

Lemma dict_find_coefficient_absent terms n :
  (forall kv, kv ∈ terms -> fst kv <> n) ->
  find_coefficient terms n = Raise KeyError.
Proof.
  intros Habs. unfold find_coefficient, dict_getitem.
  by rewrite dict_get_absent.
Qed.

End DictStore.

(** ** __add__ of with_2d_list.py *)

Section OrderedAdd.
Context {num : Type} `{Number num}.
Import with_2d_list.
Implicit Types (terms self other result : list (term num)).

(** [add_term] returns on every list, ascending or not. *)
Lemma add_term_returns terms (c : num) (e : N) :
  exists terms', add_term terms c e = Ok terms'.
Proof.
  unfold add_term. destruct (ne0 c); [|by exists terms].
  destruct (search_terms_ends terms e) as
    [(mid & t & Hm & Hmid & Ht & He)|(ins & Hm & Hins)]; rewrite Hm; simpl.
  - rewrite (getitem_lookup terms mid t); [|lia|done]. simpl.
    rewrite setitem_in_range; [|lia]. by eexists.
  - by eexists.
Qed.

(** The merge loop ends with one of the two cursors at the end of its list:
    each round moves a cursor forward. *)
Lemma merge_returns fuel self other : forall result (i j : Z),
  0 <= i <= Z.of_nat (length self) -> 0 <= j <= Z.of_nat (length other) ->
  Z.of_nat (length self) - i + (Z.of_nat (length other) - j) < Z.of_nat fuel ->
  exists result' i' j',
    merge fuel self other result i j = Ok (result', i', j') /\
    i <= i' <= Z.of_nat (length self) /\
    j <= j' <= Z.of_nat (length other) /\
    (i' = Z.of_nat (length self) \/ j' = Z.of_nat (length other)).
Proof.
  induction fuel as [|fuel IH]; intros result i j Hi Hj Hf; [lia|].
  simpl.
  destruct (Z.ltb_spec i (Z.of_nat (length self))) as [Hil|Hil]; simpl;
    [destruct (Z.ltb_spec j (Z.of_nat (length other))) as [Hjl|Hjl]; simpl|].
  - destruct (getitem_in_range self i) as ([c1 e1] & _ & ->); [lia|].
    destruct (getitem_in_range other j) as ([c2 e2] & _ & ->); [lia|].
    simpl. destruct (e1 =? e2)%N; [|destruct (e1 <? e2)%N].
    + destruct (add_term_returns result (add c1 c2) e1) as [r ->]. simpl.
      destruct (IH r (i + 1) (j + 1)) as (r' & i' & j' & -> & ? & ? & ?);
        [lia..|].
      exists r', i', j'. repeat split; [lia..|done].
    + destruct (add_term_returns result c1 e1) as [r ->]. simpl.
      destruct (IH r (i + 1) j) as (r' & i' & j' & -> & ? & ? & ?); [lia..|].
      exists r', i', j'. repeat split; [lia..|done].
    + destruct (add_term_returns result c2 e2) as [r ->]. simpl.
      destruct (IH r i (j + 1)) as (r' & i' & j' & -> & ? & ? & ?); [lia..|].
      exists r', i', j'. repeat split; [lia..|done].
  - exists result, i, j. repeat split; [lia..|]. right. lia.
  - exists result, i, j. repeat split; [lia..|]. left. lia.
Qed.

(** *** What the merge loop leaves in [result] *)

Lemma merged_nil_r (l : list (term num)) : merged l [] = l.
Proof. by destruct l as [|[c e] l]. Qed.

Lemma merged_nil_l (l : list (term num)) : merged [] l = l.
Proof. by destruct l. Qed.

Lemma ascending_drop terms (k : nat) : ascending terms -> ascending (drop k terms).
Proof.
  intros Hs. unfold ascending in *. rewrite <- (take_drop k terms) in Hs.
  by apply StronglySorted_app_1_r in Hs.
Qed.

Lemma ascending_snoc terms (t : term num) :
  ascending terms -> Forall (fun t' => exp_lt t' t) terms ->
  ascending (terms ++ [t]).
Proof.
  intros Hs Hall. apply StronglySorted_app. repeat split; [|done|].
  - intros x1 x2 Hx1 Hx2. apply list_elem_of_singleton in Hx2 as ->.
    rewrite Forall_forall in Hall. by apply Hall.
  - repeat constructor.
Qed.

Lemma stored_one (c : num) (e : N) :
  stored [(c, e)] = if ne0 c then [(c, e)] else [].
Proof.
  unfold stored. rewrite filter_cons, filter_nil. unfold coeff. simpl.
  destruct (ne0 c); [by rewrite decide_True|by rewrite decide_False].
Qed.

Lemma stored_cons (t : term num) (l : list (term num)) :
  stored (t :: l) = stored [t] ++ stored l.
Proof.
  unfold stored. rewrite !filter_cons, filter_nil.
  by destruct (decide (ne0 (coeff t) = true)).
Qed.

Lemma stored_elem_of (t : term num) (l : list (term num)) :
  t ∈ stored l -> t ∈ l.
Proof. unfold stored. rewrite list_elem_of_filter. by intros [_ ?]. Qed.

(** [add_term] of an exponent above all those stored puts the term at the
    end, unless its coefficient is zero. *)
Lemma add_term_append terms (c : num) (e : N) :
  ascending terms -> Forall (fun t => exp_lt t (c, e)) terms ->
  add_term terms c e = Ok (terms ++ stored [(c, e)]).
Proof.
  intros Hs Hall. rewrite stored_one. unfold add_term.
  destruct (ne0 c) eqn:Hc; [|by rewrite app_nil_r].
  rewrite Forall_lookup in Hall. unfold exp_lt, expo in Hall. simpl in Hall.
  destruct (search_terms_ends terms e) as
    [(mid & t & Hm & Hmid & Ht & He)|(ins & Hm & Hins)]; rewrite Hm; simpl.
  - specialize (Hall _ _ Ht). unfold expo in He. lia.
  - destruct (search_terms_miss terms e ins Hs Hm) as [_ Hhi].
    assert (ins = Z.of_nat (length terms)) as ->.
    { destruct (Z.eq_dec ins (Z.of_nat (length terms))) as [|Hne]; [done|].
      destruct (lookup_lt_is_Some_2 terms (Z.to_nat ins)) as [t Ht]; [lia|].
      specialize (Hall _ _ Ht).
      specialize (Hhi _ _ Ht ltac:(lia)). unfold expo in Hhi. lia. }
    rewrite list_insert_at_nonneg by lia.
    rewrite Nat2Z.id, take_ge, drop_ge by lia. done.
Qed.

(** From any state of the loop on two ascending lists, with [result]
    ascending and below everything not yet consumed: the loop ends, and what
    it has added to [result] is the stored part of a list [emitted] such
    that [emitted] followed by the two remainders is the merge of what was
    left to consume. *)
Lemma merge_computes fuel self other : forall result (i j : Z),
  ascending self -> ascending other -> ascending result ->
  0 <= i <= Z.of_nat (length self) -> 0 <= j <= Z.of_nat (length other) ->
  (forall t t', t ∈ result ->
      t' ∈ drop (Z.to_nat i) self ++ drop (Z.to_nat j) other -> exp_lt t t') ->
  Z.of_nat (length self) - i + (Z.of_nat (length other) - j) < Z.of_nat fuel ->
  exists emitted i' j',
    merge fuel self other result i j = Ok (result ++ stored emitted, i', j') /\
    0 <= i' /\ 0 <= j' /\
    emitted ++ drop (Z.to_nat i') self ++ drop (Z.to_nat j') other =
      merged (drop (Z.to_nat i) self) (drop (Z.to_nat j) other) /\
    (i' = Z.of_nat (length self) \/ j' = Z.of_nat (length other)).
Proof.
  intros result i j Hs1 Hs2. revert result i j.
  induction fuel as [|fuel IH]; intros result i j Hr Hi Hj Hlt Hf; [lia|].
  simpl.
  destruct (Z.ltb_spec i (Z.of_nat (length self))) as [Hil|Hil]; simpl;
    [destruct (Z.ltb_spec j (Z.of_nat (length other))) as [Hjl|Hjl]; simpl|].
  3:{ exists [], i, j. split_and!; [|lia|lia| |left; lia].
      - unfold stored. by rewrite filter_nil, app_nil_r.
      - rewrite (drop_ge self) by lia. by rewrite merged_nil_l. }
  2:{ exists [], i, j. split_and!; [|lia|lia| |right; lia].
      - unfold stored. by rewrite filter_nil, app_nil_r.
      - rewrite (drop_ge other) by lia. by rewrite merged_nil_r, app_nil_r. }
  destruct (getitem_in_range self i) as ([c1 e1] & Ht1 & ->); [lia|].
  destruct (getitem_in_range other j) as ([c2 e2] & Ht2 & ->); [lia|].
  simpl.
  pose proof (drop_S _ _ _ Ht1) as Hd1. pose proof (drop_S _ _ _ Ht2) as Hd2.
  pose proof (ascending_drop self (Z.to_nat i) Hs1) as Ha1.
  pose proof (ascending_drop other (Z.to_nat j) Hs2) as Ha2.
  rewrite Hd1 in Ha1. rewrite Hd2 in Ha2.
  apply StronglySorted_cons in Ha1 as [Hall1 _].
  apply StronglySorted_cons in Ha2 as [Hall2 _].
  rewrite Forall_forall in Hall1. rewrite Forall_forall in Hall2.
  unfold exp_lt, expo in Hall1, Hall2. simpl in Hall1, Hall2.
  rewrite Hd1, Hd2 in Hlt |- *. simpl.
  replace (Z.to_nat (i + 1)) with (S (Z.to_nat i)) in IH by lia.
  replace (Z.to_nat (j + 1)) with (S (Z.to_nat j)) in IH by lia.
  assert (forall t, t ∈ result -> (expo t < e1)%N) as Hlt1.
  { intros t Ht. apply (Hlt t (c1, e1) Ht). apply elem_of_app. left. left. }
  assert (forall t, t ∈ result -> (expo t < e2)%N) as Hlt2.
  { intros t Ht. apply (Hlt t (c2, e2) Ht). apply elem_of_app. right. left. }
  (* the three branches share their last step: the term [(c, e)] goes to
     [add_term] and the loop goes on from the cursors [i2], [j2] *)
  assert (forall (c : num) (e : N) (i2 j2 : Z),
    0 <= i2 <= Z.of_nat (length self) -> 0 <= j2 <= Z.of_nat (length other) ->
    Z.of_nat (length self) - i2 + (Z.of_nat (length other) - j2)
      < Z.of_nat fuel ->
    (forall t, t ∈ result -> (expo t < e)%N) ->
    (forall t', t' ∈ drop (Z.to_nat i2) self ++ drop (Z.to_nat j2) other ->
                (e < expo t')%N /\
                forall t, t ∈ result -> exp_lt t t') ->
    exists emitted i' j',
      (r ← add_term result c e; merge fuel self other r i2 j2)
        = Ok (result ++ stored ((c, e) :: emitted), i', j') /\
      0 <= i' /\ 0 <= j' /\
      emitted ++ drop (Z.to_nat i') self ++ drop (Z.to_nat j') other =
        merged (drop (Z.to_nat i2) self) (drop (Z.to_nat j2) other) /\
      (i' = Z.of_nat (length self) \/ j' = Z.of_nat (length other))) as Hstep.
  { intros c e i2 j2 Hi2 Hj2 Hf2 Hbelow Hnext.
    assert (Forall (fun t' => exp_lt t' (c, e)) result) as Hall.
    { apply Forall_forall. intros t' Ht'. by apply Hbelow. }
    rewrite (add_term_append result c e Hr Hall). simpl.
    destruct (IH (result ++ stored [(c, e)]) i2 j2)
      as (emitted & i' & j' & -> & ? & ? & Hm & Hend); [|lia|lia| |lia|].
    - rewrite stored_one. destruct (ne0 c).
      + by apply ascending_snoc.
      + by rewrite app_nil_r.
    - intros t t' Ht Ht'. destruct (Hnext t' Ht') as [Hnew Hold].
      apply elem_of_app in Ht as [Ht|Ht]; [by apply Hold|].
      apply stored_elem_of, list_elem_of_singleton in Ht as ->. done.
    - exists emitted, i', j'. split_and!; [|done..].
      by rewrite (stored_cons (c, e) emitted), app_assoc. }
  destruct (N.eqb_spec e1 e2) as [->|Hne]; [|destruct (N.ltb_spec e1 e2)].
  - destruct (Hstep (add c1 c2) e2 (i + 1) (j + 1))
      as (emitted & i' & j' & Hrun & ? & ? & Hm & Hend); [lia|lia|lia|done| |].
    + replace (Z.to_nat (i + 1)) with (S (Z.to_nat i)) by lia.
      replace (Z.to_nat (j + 1)) with (S (Z.to_nat j)) by lia.
      intros t' Ht'. split.
      * apply elem_of_app in Ht' as [Ht'|Ht']; [by apply Hall1|by apply Hall2].
      * intros t Ht. apply (Hlt t t' Ht).
        apply elem_of_app in Ht' as [Ht'|Ht']; apply elem_of_app;
          [left|right]; by right.
    + exists ((add c1 c2, e2) :: emitted), i', j'.
      split_and!; [done..| |done].
      simpl. rewrite Hm.
      replace (Z.to_nat (i + 1)) with (S (Z.to_nat i)) by lia.
      by replace (Z.to_nat (j + 1)) with (S (Z.to_nat j)) by lia.
  - destruct (Hstep c1 e1 (i + 1) j)
      as (emitted & i' & j' & Hrun & ? & ? & Hm & Hend); [lia|lia|lia|done| |].
    + replace (Z.to_nat (i + 1)) with (S (Z.to_nat i)) by lia.
      rewrite Hd2. intros t' Ht'. split.
      * apply elem_of_app in Ht' as [Ht'|Ht']; [by apply Hall1|].
        apply elem_of_cons in Ht' as [->|Ht']; [done|].
        specialize (Hall2 _ Ht'). unfold expo. lia.
      * intros t Ht. apply (Hlt t t' Ht).
        apply elem_of_app in Ht' as [Ht'|Ht']; apply elem_of_app;
          [left; by right|by right].
    + exists ((c1, e1) :: emitted), i', j'. split_and!; [done..| |done].
      simpl. rewrite Hm, Hd2.
      by replace (Z.to_nat (i + 1)) with (S (Z.to_nat i)) by lia.
  - destruct (Hstep c2 e2 i (j + 1))
      as (emitted & i' & j' & Hrun & ? & ? & Hm & Hend); [lia|lia|lia|done| |].
    + replace (Z.to_nat (j + 1)) with (S (Z.to_nat j)) by lia.
      rewrite Hd1. intros t' Ht'. split.
      * apply elem_of_app in Ht' as [Ht'|Ht']; [|by apply Hall2].
        apply elem_of_cons in Ht' as [->|Ht']; [simpl; lia|].
        specialize (Hall1 _ Ht'). unfold expo. lia.
      * intros t Ht. apply (Hlt t t' Ht).
        apply elem_of_app in Ht' as [Ht'|Ht']; apply elem_of_app;
          [by left|right; by right].
    + exists ((c2, e2) :: emitted), i', j'. split_and!; [done..| |done].
      simpl. rewrite Hm, Hd1.
      by replace (Z.to_nat (j + 1)) with (S (Z.to_nat j)) by lia.
Qed.

(** The loop of [__add__] on two ascending lists, from its start: [result]
    gets the stored part of the merge up to the point where one list ends,
    and the two slices of the last statement are what is still missing. *)
Lemma merge_loop_is_the_merge self other :
  ascending self -> ascending other ->
  exists emitted i j,
    merge (S (length self + length other)) self other [] 0 0
      = Ok (stored emitted, i, j) /\
    emitted ++ slice_from self i ++ slice_from other j = merged self other /\
    (i = Z.of_nat (length self) \/ j = Z.of_nat (length other)).
Proof.
  intros Hs1 Hs2.
  destruct (merge_computes (S (length self + length other)) self other [] 0 0)
    as (emitted & i & j & Hrun & Hi & Hj & Hm & Hend);
    [done|done|constructor|lia|lia| |lia|].
  - intros t t' Ht. by apply elem_of_nil in Ht.
  - exists emitted, i, j. split_and!; [done| |done].
    unfold slice_from.
    destruct (Z.leb_spec 0 i); [|lia]. by destruct (Z.leb_spec 0 j); [|lia].
Qed.

(** Whatever the operands, the call ends in the [TypeError] of the
    [isinstance] test: at once for an operand that is no polynomial, and for
    a polynomial in the nested call that [result += ...] makes. *)
Lemma add_raises calls self (other : operand) :
  __add__ (S (S calls)) self other = Raise TypeError.
Proof.
  destruct other as [others|items]; [|done].
  cbn [__add__].
  destruct (merge_returns (S (length self + length others)) self others
              [] 0 0) as (r & i & j & -> & _); [lia..|].
  done.
Qed.

End OrderedAdd.

(** ** evaluate *)

#[export] Instance int_exact : ExactArith Z.
Proof.
  split; simpl; intros.
  - lia.
  - lia.
  - lia.
  - lia.
  - rewrite Z.pow_0_l; lia.
Qed.

Section Evaluate.
Context {num : Type} `{ExactArith num}.

Lemma add_zero_r (a : num) : add a zero = a.
Proof. by rewrite add_comm, add_zero_l. Qed.

Lemma total_app (l1 l2 : list num) :
  total (l1 ++ l2) = add (total l1) (total l2).
Proof.
  induction l1 as [|a l1 IH]; simpl.
  - by rewrite add_zero_l.
  - by rewrite IH, add_assoc.
Qed.

(** The sum does not depend on the order of the terms. *)
Lemma total_perm (l1 l2 : list num) : l1 ≡ₚ l2 -> total l1 = total l2.
Proof.
  induction 1 as [|a l1 l2 _ IH|a b l|l1 l2 l3 _ IH1 _ IH2]; simpl.
  - done.
  - by rewrite IH.
  - by rewrite !add_assoc, (add_comm a b).
  - by rewrite IH1.
Qed.


(** The loop of [evaluate], started from any [result]. *)
Lemma evaluate_loop {T : Type} (f : T -> num) (terms : list T) : forall result,
  fold_left (fun result t => add result (f t)) terms result =
  add result (total (map f terms)).
Proof.
  induction terms as [|t terms IH]; intros result; simpl.
  - by rewrite add_zero_r.
  - by rewrite IH, add_assoc.
Qed.

Lemma ordered_evaluate_total (terms : list (with_2d_list.term num)) (x : num) :
  with_2d_list.evaluate terms x =
  total (map (fun t => mul (with_2d_list.coeff t)
                           (pow x (with_2d_list.expo t))) terms).
Proof.
  unfold with_2d_list.evaluate. by rewrite evaluate_loop, add_zero_l.
Qed.

Lemma dict_evaluate_total (terms : list (N * num)) (x : num) :
  with_dict.evaluate terms x =
  total (map (fun t => mul (snd t) (pow x (fst t))) terms).
Proof.
  unfold with_dict.evaluate.
  rewrite <- (add_zero_l (total _)), <- evaluate_loop.
  apply fold_left_pointwise. by intros result [e c].
Qed.

(** Both strategies evaluate alike when they hold the same terms, in
    whatever order the dict has them. *)
Lemma evaluate_same_terms (terms : list (with_2d_list.term num))
    (d : list (N * num)) (x : num) :
  map (fun t => (snd t, fst t)) d ≡ₚ terms ->
  with_dict.evaluate d x = with_2d_list.evaluate terms x.
Proof.
  intros Hp. rewrite dict_evaluate_total, ordered_evaluate_total.
  rewrite <- (total_perm _ _ (fmap_Permutation _ _ _ Hp)).
  f_equal. rewrite map_map. by apply map_ext.
Qed.




End Evaluate.

(** ** The parser *)

Section Parser.
Import Text.
Local Open Scope string_scope.

(** [float] of nothing, or of a bare sign, raises. *)
Lemma float_of_no_digits (s : string) :
  s = "" \/ s = "+" \/ s = "-" -> float_of_string s = Raise ValueError.
Proof. intros [-> | [-> | ->]]; reflexivity. Qed.

(** A piece that matches the pattern with no digit in its first group is
    not parsed: the conversion of the coefficient raises. *)
Lemma parse_term_no_digits (piece group1 group2 : string) :
  re_match term_pattern (strip piece) = Some [group1; group2] ->
  group1 = "" \/ group1 = "+" \/ group1 = "-" ->
  parse_term piece = Raise ValueError.
Proof.
  intros Hm Hg. unfold parse_term. rewrite Hm.
  by rewrite (float_of_no_digits group1 Hg).
Qed.

(** A piece that matches without digits after [x] and is parsed has
    exponent 1. *)
Lemma parse_term_default_exponent (piece group1 : string) c (e : N) :
  re_match term_pattern (strip piece) = Some [group1; ""] ->
  parse_term piece = Ok (c, e) -> e = 1%N.
Proof.
  intros Hm. unfold parse_term. rewrite Hm.
  destruct (float_of_string group1); simpl; [|done..].
  intros Heq. by simplify_eq.
Qed.

(** A piece that does not match the pattern is read as a constant. *)
Lemma parse_term_constant (piece : string) c (e : N) :
  re_match term_pattern (strip piece) = None ->
  parse_term piece = Ok (c, e) -> e = 0%N.
Proof.
  intros Hm. unfold parse_term. rewrite Hm.
  destruct (float_of_string (strip piece)); simpl; [|done..].
  intros Heq. by simplify_eq.
Qed.

End Parser.

(** * The claims *)

Section Claims.
Context {num : Type} `{Number num}.
Implicit Types (terms : list (with_2d_list.term num)) (d : list (N * num)).
Implicit Types (c : num) (e n : N).

(** C6: [add_term(0, e)] leaves the whole term collection as it is, in the
    list and in the dict: nothing is inserted and no coefficient changes. *)
Theorem add_term_zero_is_noop terms d e :
  with_2d_list.add_term terms zero e = Ok terms /\
  with_dict.add_term d zero e = Ok d.
Proof.
  split.
  - unfold with_2d_list.add_term. by rewrite ne0_zero.
  - unfold with_dict.add_term. by rewrite ne0_zero.
Qed.

(** C4: for an exponent that no stored term has, [find_coefficient] of the
    list returns 0 (it does not fail), and [find_coefficient] of the dict
    raises [KeyError]. *)
Theorem find_coefficient_of_absent_exponent terms d n :
  n ∉ map with_2d_list.expo terms -> n ∉ map fst d ->
  with_2d_list.find_coefficient terms n = Ok zero /\
  with_dict.find_coefficient d n = Raise KeyError.
Proof.
  intros Hterms Hd. split.
  - apply find_coefficient_absent. intros t Hin Heq. apply Hterms.
    rewrite <- Heq. apply list_elem_of_fmap. by exists t.
  - apply dict_find_coefficient_absent. intros kv Hin Heq. apply Hd.
    rewrite <- Heq. apply list_elem_of_fmap. by exists kv.
Qed.

(** C5: [add_term(c, e)] with [c != 0] on a polynomial that has a term of
    exponent [e] adds [c] to the coefficient of that term and changes nothing
    else.  The term stays where it is whatever the new coefficient is, zero
    included: the list keeps its length and its other entries, the dict its
    keys. *)
Theorem add_term_accumulates terms d c e (i : nat) (c0 d0 : num) :
  with_2d_list.ascending terms -> ne0 c = true ->
  terms !! i = Some (c0, e) -> dict_get d e = Some d0 ->
  (exists terms',
     with_2d_list.add_term terms c e = Ok terms' /\
     terms' = <[i := (add c0 c, e)]> terms /\
     terms' !! i = Some (add c0 c, e) /\
     length terms' = length terms) /\
  (exists d',
     with_dict.add_term d c e = Ok d' /\
     d' = dict_setitem d e (add d0 c) /\
     dict_get d' e = Some (add d0 c) /\
     map fst d' = map fst d /\
     (forall e', e' <> e -> dict_get d' e' = dict_get d e')).
Proof.
  intros Hs Hc Hi Hg. split.
  - exists (<[i := (add c0 c, e)]> terms). repeat split.
    + by apply add_term_present.
    + apply list_lookup_insert_eq. by apply lookup_lt_Some in Hi.
    + apply length_insert.
  - exists (dict_setitem d e (add d0 c)). repeat split.
    + by apply dict_add_term_present.
    + apply dict_get_setitem.
    + by apply (dict_setitem_keys d e _ d0).
    + intros e' Hne. by apply dict_get_setitem_ne.
Qed.

(** C7: in the list strategy [add_term] returns and keeps the terms in
    strictly ascending order of exponent, so the exponents stay pairwise
    distinct; hence any run of [add_term] calls from the empty polynomial
    ends in such a list. *)
Theorem add_term_keeps_ascending terms c e (calls : list (num * N)) :
  with_2d_list.ascending terms ->
  (exists terms',
     with_2d_list.add_term terms c e = Ok terms' /\
     with_2d_list.ascending terms' /\
     NoDup (map with_2d_list.expo terms')) /\
  (exists terms',
     with_2d_list.add_terms [] calls = Ok terms' /\
     with_2d_list.ascending terms' /\
     NoDup (map with_2d_list.expo terms')).
Proof.
  intros Hs. split.
  - destruct (add_term_ascending terms c e Hs) as (terms' & Hadd & Hs').
    exists terms'. repeat split; [done|done|]. by apply ascending_NoDup.
  - destruct (add_terms_ascending calls [] ascending_nil)
      as (terms' & Hadd & Hs').
    exists terms'. repeat split; [done|done|]. by apply ascending_NoDup.
Qed.

(** C1: the claim does not hold of the code.  [__add__] of the list strategy
    returns no polynomial: whatever the two polynomials, the call ends in the
    [TypeError] that its last statement, [result += ...], runs into. *)
Theorem ordered_add_raises_type_error (calls : nat) terms
    (others : list (with_2d_list.term num)) :
  with_2d_list.__add__ (S (S calls)) terms (with_2d_list.Polynomial others)
  = Raise TypeError.
Proof.
  pose proof (add_raises calls terms (with_2d_list.Polynomial others)) as Hr.
  exact Hr.
Qed.

(** C9: the claim does not hold of the code.  On the same two polynomials
    the dict strategy returns a sum and the list strategy raises a
    [TypeError], so the two never give equal results. *)
Theorem strategies_disagree_on_add (calls : nat) terms
    (others : list (with_2d_list.term num)) d (d_others : list (N * num)) :
  with_2d_list.__add__ (S (S calls)) terms (with_2d_list.Polynomial others)
  = Raise TypeError /\
  exists result, with_dict.__add__ d (with_dict.Polynomial d_others) = Ok result.
Proof.
  split.
  - apply add_raises.
  - apply dict_add_returns.
Qed.

(** C10: [__str__] of a polynomial without terms is the empty string, in
    both strategies. *)
Theorem str_of_no_terms `{Show num} :
  with_2d_list.__str__ (@nil (with_2d_list.term num)) = EmptyString /\
  with_dict.__str__ (@nil (N * num)) = EmptyString.
Proof.
  split.
  - unfold with_2d_list.__str__. simpl. reflexivity.
  - unfold with_dict.__str__. simpl. reflexivity.
Qed.


End Claims.

(** ** The claims at concrete polynomials *)

Section Concrete.
Import Text.
Local Open Scope string_scope.
Local Open Scope N_scope.

(** [2.1] below is the binary64 nearest to 2.1, which is what Python's
    literal [2.1] is too. *)
#[local] Set Warnings "-inexact-float".

(** C2: the example string parses to the terms 8: 2.1, 9: 40, 1: 3, 0: 1 (the
    dict in the order the keys came, the list ascending by exponent), and
    [find_coefficient(9)] of the polynomial is 40.0. *)
Theorem example_polynomial_parses :
  with_dict.__init__ polynomial_str1 =
    Ok [(8, 2.1%float); (9, 40%float); (1, 3%float); (0, 1%float)] /\
  with_2d_list.__init__ polynomial_str1 =
    Ok [(1%float, 0); (3%float, 1); (2.1%float, 8); (40%float, 9)] /\
  (terms ← with_dict.__init__ polynomial_str1;
   with_dict.find_coefficient terms 9) = Ok 40%float /\
  (terms ← with_2d_list.__init__ polynomial_str1;
   with_2d_list.find_coefficient terms 9) = Ok 40%float.
Proof.
  repeat split; vm_compute; reflexivity.
Qed.

(** C3: the claim does not hold of the code.  A piece with [x] and no digits
    in front of it matches the pattern with a first group that is empty or a
    bare sign, and [float] of that raises [ValueError]: no coefficient 1 or
    -1 comes out, and no polynomial.  Where the digits are there, the
    exponent of a piece without [^exponent] is 1. *)
Theorem pieces_without_digits_raise :
  parse_term "x" = Raise ValueError /\
  parse_term "+x^3" = Raise ValueError /\
  parse_term "-x" = Raise ValueError /\
  with_2d_list.__init__ "x" = Raise ValueError /\
  with_dict.__init__ "x" = Raise ValueError /\
  with_2d_list.__init__ "2x^2 + x^3" = Raise ValueError /\
  with_dict.__init__ "3 - x" = Raise ValueError /\
  parse_term "+3x" = Ok (3%float, 1).
Proof.
  repeat split; vm_compute; reflexivity.
Qed.

(** On the parser's floats: constants that cancel leave their term behind,
    with coefficient 0.0. *)
Example cancelled_constant_stays :
  with_2d_list.__init__ "3x + 10 - 10" = Ok [(0%float, 0); (3%float, 1)] /\
  with_dict.__init__ "3x + 10 - 10" = Ok [(1, 3%float); (0, 0%float)].
Proof. split; vm_compute; reflexivity. Qed.

End Concrete.

(** ** Instances of the claims

    Each theorem above that has a premise, run on Python [int]s. *)

(** A closed decidable proposition, by running its decision procedure. *)
Ltac by_decide := apply (bool_decide_unpack _); vm_compute; exact I.

Section Witnesses.
Import with_2d_list.
Local Open Scope Z_scope.

Lemma find_coefficient_of_absent_exponent_witness :
  with_2d_list.find_coefficient [(5, 1%N); (7, 3%N)] 2%N = Ok 0 /\
  with_dict.find_coefficient [(1%N, 5); (3%N, 7)] 2%N = Raise KeyError.
Proof.
  refine (find_coefficient_of_absent_exponent (num := Z)
            [(5, 1%N); (7, 3%N)] [(1%N, 5); (3%N, 7)] 2%N _ _).
  - by_decide.
  - by_decide.
Defined.

(** Adding -5 to the term [[5, 2]] leaves the term in place with
    coefficient 0. *)
Lemma add_term_accumulates_witness :
  with_2d_list.add_term [(3, 1%N); (5, 2%N)] (-5) 2%N
    = Ok [(3, 1%N); (0, 2%N)] /\
  with_dict.add_term [(2%N, 5); (1%N, 3)] (-5) 2%N
    = Ok [(2%N, 0); (1%N, 3)].
Proof.
  destruct (add_term_accumulates (num := Z)
              [(3, 1%N); (5, 2%N)] [(2%N, 5); (1%N, 3)] (-5) 2%N 1%nat 5 5)
    as [(terms' & Hadd & -> & _) (d' & Hadd' & -> & _)].
  - by_decide.
  - reflexivity.
  - reflexivity.
  - reflexivity.
  - split; [exact Hadd|exact Hadd'].
Defined.

Lemma add_term_keeps_ascending_witness :
  (exists terms',
     with_2d_list.add_term [(3, 1%N); (5, 4%N)] 7 2%N = Ok terms' /\
     ascending terms' /\ NoDup (map expo terms')) /\
  (exists terms',
     with_2d_list.add_terms [] [(2, 8%N); (30, 9%N); (3, 1%N); (10, 9%N)]
       = Ok terms' /\
     ascending terms' /\ NoDup (map expo terms')).
Proof.
  refine (add_term_keeps_ascending (num := Z)
            [(3, 1%N); (5, 4%N)] 7 2%N
            [(2, 8%N); (30, 9%N); (3, 1%N); (10, 9%N)] _).
  by_decide.
Defined.


(** The loop of [__add__] drops a pair of terms that sum to zero, where the
    dict strategy keeps the key with value 0. *)
Example merge_drops_zero_sum :
  merge 3 [(1, 2%N)] [(-1, 2%N)] [] 0 0 = Ok ([], 1, 1) /\
  with_dict.__add__ [(2%N, 1)] (with_dict.Polynomial [(2%N, -1)])
    = Ok [(2%N, 0)].
Proof. split; reflexivity. Qed.

End Witnesses.

(** * Further properties of the two stores *)

(** ** Reading by exponent *)

Section Lookup.
Context {num : Type} `{Number num}.
Implicit Types (terms : list (with_2d_list.term num)) (d : list (N * num)).
Implicit Types (c : num) (e : N).

Lemma dict_get_app {K V : Type} `{EqDecision K} (d1 d2 : list (K * V)) k :
  dict_get (d1 ++ d2) k =
  match dict_get d1 k with Some v => Some v | None => dict_get d2 k end.
Proof.
  induction d1 as [|[k' v'] d1 IH]; simpl; [done|].
  by destruct (decide (k' = k)).
Qed.

Lemma dict_get_elem_of {K V : Type} `{EqDecision K} (d : list (K * V)) k v :
  NoDup (map fst d) -> dict_get d k = Some v <-> (k, v) ∈ d.
Proof.
  induction d as [|[k' v'] d IH]; simpl; intros Hnd.
  - split; [done|]. intros Hin. by apply elem_of_nil in Hin.
  - apply NoDup_cons in Hnd as [Hk' Hnd].
    destruct (decide (k' = k)) as [->|Hne].
    + split.
      * intros [= ->]. left.
      * intros Hin. apply elem_of_cons in Hin as [[= ->]|Hin]; [done|].
        exfalso. apply Hk'. apply list_elem_of_fmap. by exists (k, v).
    + rewrite (IH Hnd). split.
      * intros Hin. by right.
      * intros Hin. apply elem_of_cons in Hin as [[= -> ->]|Hin]; done.
Qed.

Lemma items_keys terms : map fst (items terms) = map with_2d_list.expo terms.
Proof. unfold items. rewrite map_map. by apply map_ext. Qed.

Lemma items_app terms1 terms2 :
  items (terms1 ++ terms2) = items terms1 ++ items terms2.
Proof. unfold items. apply map_app. Qed.

Lemma items_absent terms e :
  (forall t, t ∈ terms -> with_2d_list.expo t <> e) ->
  dict_get (items terms) e = None.
Proof.
  intros Habs. apply dict_get_absent. intros kv Hin.
  apply list_elem_of_fmap in Hin as (t & -> & Hin). by apply Habs.
Qed.

(** On an ascending list [find_coefficient] reads the term of that exponent,
    and answers 0 when there is none. *)
Lemma find_coefficient_items terms e :
  with_2d_list.ascending terms ->
  with_2d_list.find_coefficient terms e
  = Ok (default zero (dict_get (items terms) e)).
Proof.
  intros Hs. destruct (dict_get (items terms) e) as [c0|] eqn:Hg; simpl.
  - apply dict_get_elem_of in Hg.
    2:{ rewrite items_keys. by apply ascending_NoDup. }
    apply list_elem_of_fmap in Hg as ([c0' e'] & [= -> ->] & Hin).
    apply list_elem_of_lookup in Hin as [i Hi].
    by apply (find_coefficient_present terms e' i c0').
  - apply find_coefficient_absent. intros t Hin Heq.
    apply dict_get_None_keys in Hg. apply Hg. rewrite items_keys.
    rewrite <- Heq. apply list_elem_of_fmap. by exists t.
Qed.

(** What [add_term] of the list strategy does to the coefficient read at any
    exponent. *)
Lemma add_term_items terms c e terms' e' :
  with_2d_list.ascending terms ->
  with_2d_list.add_term terms c e = Ok terms' ->
  dict_get (items terms') e' =
  if decide (e' = e) then bump (dict_get (items terms) e) c
  else dict_get (items terms) e'.
Proof.
  intros Hs. unfold with_2d_list.add_term, bump.
  destruct (ne0 c) eqn:Hc.
  2:{ intros [= <-]. by destruct (decide (e' = e)) as [->|]. }
  destruct (search_terms_ends terms e) as
    [(mid & [c0 e0] & Hm & Hmid & Ht & He)|(ins & Hm & Hins)]; rewrite Hm; simpl.
  - unfold with_2d_list.expo in He. simpl in He. subst e0.
    rewrite (getitem_lookup terms mid (c0, e)); [|lia|done]. simpl.
    rewrite setitem_in_range; [|lia]. intros [= <-].
    rewrite insert_take_drop; [|lia].
    assert (items terms = items (take (Z.to_nat mid) terms)
              ++ (e, c0) :: items (drop (S (Z.to_nat mid)) terms)) as ->.
    { rewrite <- (take_drop_middle terms (Z.to_nat mid) (c0, e) Ht) at 1.
      by rewrite items_app. }
    rewrite !items_app. simpl. rewrite !dict_get_app. simpl.
    assert (dict_get (items (take (Z.to_nat mid) terms)) e = None) as Hpre.
    { apply items_absent. intros t Hin Heq.
      apply list_elem_of_lookup in Hin as [i Hi].
      apply lookup_take_Some in Hi as [Hi Hlt].
      pose proof (strongly_sorted_lookup _ _ _ _ _ _ Hs Hi Ht Hlt) as Hord.
      unfold with_2d_list.exp_lt in Hord. simpl in Hord.
      unfold with_2d_list.expo in *. simpl in *. lia. }
    destruct (decide (e' = e)) as [->|Hne].
    + rewrite Hpre. unfold with_2d_list.coeff, with_2d_list.expo. simpl.
      by rewrite !decide_True.
    + unfold with_2d_list.coeff, with_2d_list.expo. simpl.
      by rewrite !decide_False.
  - intros [= <-]. rewrite list_insert_at_nonneg; [|lia].
    destruct (search_terms_miss terms e ins Hs Hm) as [Hlo Hhi].
    assert (forall t, t ∈ terms -> with_2d_list.expo t <> e) as Habs.
    { intros t Hin Heq. apply list_elem_of_lookup in Hin as [i Hi].
      destruct (Z.lt_ge_cases (Z.of_nat i) ins) as [Hlt|Hge].
      - specialize (Hlo i t Hi Hlt). lia.
      - specialize (Hhi i t Hi Hge). lia. }
    assert (items terms = items (take (Z.to_nat ins) terms)
              ++ items (drop (Z.to_nat ins) terms)) as ->.
    { rewrite <- (take_drop (Z.to_nat ins) terms) at 1. by rewrite items_app. }
    rewrite !items_app. simpl. rewrite !dict_get_app. simpl.
    destruct (decide (e' = e)) as [->|Hne].
    + rewrite decide_True by done.
      rewrite items_absent.
      2:{ intros t Hin. apply Habs. by eapply subseteq_take. }
      rewrite items_absent; [done|].
      intros t Hin. apply Habs. by eapply subseteq_drop.
    + by rewrite decide_False.
Qed.

(** The same for the dict strategy. *)
Lemma dict_add_term_items d c e d' e' :
  with_dict.add_term d c e = Ok d' ->
  dict_get d' e' =
  if decide (e' = e) then bump (dict_get d e) c else dict_get d e'.
Proof.
  rewrite dict_add_term_returns. intros [= <-]. unfold bump.
  destruct (ne0 c).
  - destruct (decide (e' = e)) as [->|Hne].
    + destruct (dict_get d e); by rewrite dict_get_setitem.
    + destruct (dict_get d e); by rewrite dict_get_setitem_ne.
  - by destruct (decide (e' = e)) as [->|].
Qed.

End Lookup.

(** ** add_term, then find_coefficient *)

Section StoreRoundTrip.
Context {num : Type} `{Number num}.
Implicit Types (terms : list (with_2d_list.term num)) (d : list (N * num)).
Implicit Types (c : num) (e : N).

Lemma accumulated_app (calls1 calls2 : list (num * N)) e (start : option num) :
  accumulated (calls1 ++ calls2) e start =
  accumulated calls2 e (accumulated calls1 e start).
Proof. unfold accumulated. apply fold_left_app. Qed.

(** The coefficient read at [e] after a run of calls of the list strategy. *)
Lemma add_terms_items (calls : list (num * N)) e : forall terms terms',
  with_2d_list.ascending terms ->
  with_2d_list.add_terms terms calls = Ok terms' ->
  dict_get (items terms') e = accumulated calls e (dict_get (items terms) e).
Proof.
  induction calls as [|[c e1] calls IH]; intros terms terms' Hs; simpl.
  - by intros [= <-].
  - destruct (add_term_ascending terms c e1 Hs) as (terms1 & Hadd & Hs1).
    rewrite Hadd. simpl. intros Hrun.
    rewrite (IH terms1 terms' Hs1 Hrun).
    rewrite (add_term_items terms c e1 terms1 e Hs Hadd).
    destruct (N.eqb_spec e1 e) as [->|Hne].
    + by rewrite decide_True.
    + by rewrite decide_False.
Qed.

(** The same for the dict strategy; its items come as (exponent,
    coefficient). *)
Lemma add_items_items (calls : list (N * num)) e : forall d d',
  with_dict.add_items d calls = Ok d' ->
  dict_get d' e = accumulated (items calls) e (dict_get d e).
Proof.
  induction calls as [|[e1 c] calls IH]; intros d d'; simpl.
  - by intros [= <-].
  - rewrite dict_add_term_returns. simpl. intros Hrun.
    rewrite (IH _ d' Hrun).
    rewrite (dict_add_term_items d c e1 _ e (dict_add_term_returns d c e1)).
    destruct (N.eqb_spec e1 e) as [->|Hne].
    + by rewrite decide_True.
    + by rewrite decide_False.
Qed.

Lemma add_items_NoDup (calls : list (N * num)) : forall d d',
  NoDup (map fst d) -> with_dict.add_items d calls = Ok d' ->
  NoDup (map fst d').
Proof.
  induction calls as [|[e1 c] calls IH]; intros d d' Hnd; simpl.
  - by intros [= <-].
  - rewrite dict_add_term_returns. simpl. apply IH.
    apply (dict_add_term_NoDup d c e1); [done|apply dict_add_term_returns].
Qed.

(** X1: in the list strategy, [find_coefficient(e)] right after
    [add_term(c, e)] with [c != 0] returns [c] when no term had exponent [e]
    before, and the old coefficient plus [c] when one had. *)
Theorem find_coefficient_after_add_term terms c e :
  with_2d_list.ascending terms -> ne0 c = true ->
  exists terms',
    with_2d_list.add_term terms c e = Ok terms' /\
    (e ∉ map with_2d_list.expo terms ->
     with_2d_list.find_coefficient terms' e = Ok c) /\
    (forall (i : nat) c0, terms !! i = Some (c0, e) ->
     with_2d_list.find_coefficient terms' e = Ok (add c0 c)).
Proof.
  intros Hs Hc.
  destruct (add_term_ascending terms c e Hs) as (terms' & Hadd & Hs').
  exists terms'. split; [done|].
  pose proof (add_term_items terms c e terms' e Hs Hadd) as Hget.
  rewrite decide_True in Hget by done. unfold bump in Hget. rewrite Hc in Hget.
  rewrite (find_coefficient_items terms' e Hs'), Hget. split.
  - intros Habs. rewrite items_absent; [done|].
    intros t Hin Heq. apply Habs. rewrite <- Heq.
    apply list_elem_of_fmap. by exists t.
  - intros i c0 Hi.
    assert (dict_get (items terms) e = Some c0) as ->; [|done].
    apply dict_get_elem_of.
    + rewrite items_keys. by apply ascending_NoDup.
    + apply list_elem_of_fmap. exists (c0, e). split; [done|].
      apply list_elem_of_lookup. by exists i.
Qed.

(** X2: in the list strategy, [add_term(c, e)] changes what
    [find_coefficient] returns for no other exponent. *)
Theorem add_term_leaves_other_exponents terms c e terms' (e' : N) :
  with_2d_list.ascending terms ->
  with_2d_list.add_term terms c e = Ok terms' -> e' <> e ->
  with_2d_list.find_coefficient terms' e'
  = with_2d_list.find_coefficient terms e'.
Proof.
  intros Hs Hadd Hne.
  destruct (add_term_ascending terms c e Hs) as (terms1 & Hadd1 & Hs').
  rewrite Hadd in Hadd1. injection Hadd1 as <-.
  rewrite (find_coefficient_items terms' e' Hs').
  rewrite (find_coefficient_items terms e' Hs).
  rewrite (add_term_items terms c e terms' e' Hs Hadd).
  by rewrite decide_False.
Qed.

(** X3: [add_term(c, e)] with [c != 0] and an exponent no term has puts one
    new term [[c, e]] into the list and keeps all the others, whatever the
    order of the list. *)
Theorem add_term_inserts_new_exponent terms c e :
  ne0 c = true -> e ∉ map with_2d_list.expo terms ->
  exists terms',
    with_2d_list.add_term terms c e = Ok terms' /\
    terms' ≡ₚ (c, e) :: terms /\
    length terms' = S (length terms).
Proof.
  intros Hc Habs. unfold with_2d_list.add_term. rewrite Hc.
  destruct (search_terms_ends terms e) as
    [(mid & t & Hm & Hmid & Ht & He)|(ins & Hm & Hins)]; rewrite Hm; simpl.
  - exfalso. apply Habs. rewrite <- He. apply list_elem_of_fmap.
    exists t. split; [done|]. apply list_elem_of_lookup. eauto.
  - rewrite list_insert_at_nonneg; [|lia]. eexists. split; [done|].
    assert (take (Z.to_nat ins) terms ++ (c, e) :: drop (Z.to_nat ins) terms
            ≡ₚ (c, e) :: terms) as Hp.
    { rewrite <- Permutation_middle. by rewrite take_drop. }
    split; [done|]. by rewrite Hp.
Qed.

(** X4: on an ascending list the binary search of [find_coefficient] finds
    every stored term: the coefficient stored with exponent [n] is what
    [find_coefficient(n)] returns. *)
Theorem find_coefficient_of_stored_term terms (n : N) (i : nat) c0 :
  with_2d_list.ascending terms -> terms !! i = Some (c0, n) ->
  with_2d_list.find_coefficient terms n = Ok c0.
Proof.
  intros Hs Hi.
  rewrite (find_coefficient_items terms n Hs).
  assert (dict_get (items terms) n = Some c0) as ->; [|done].
  apply dict_get_elem_of.
  - rewrite items_keys. by apply ascending_NoDup.
  - apply list_elem_of_fmap. exists (c0, n). split; [done|].
    apply list_elem_of_lookup. by exists i.
Qed.

(** X5: after any run of [add_term] calls on an empty polynomial of the list
    strategy, [find_coefficient(e)] returns what the calls for [e] with a
    non-zero coefficient add up to, taken in the order of the calls, and 0
    when there was no such call. *)
Theorem find_coefficient_after_calls (calls : list (num * N)) e :
  exists terms',
    with_2d_list.add_terms [] calls = Ok terms' /\
    with_2d_list.find_coefficient terms' e
    = Ok (default zero (accumulated calls e None)).
Proof.
  destruct (add_terms_ascending calls [] ascending_nil)
    as (terms' & Hrun & Hs').
  exists terms'. split; [done|].
  rewrite (find_coefficient_items terms' e Hs').
  by rewrite (add_terms_items calls e [] terms' ascending_nil Hrun).
Qed.

(** X6: in the dict strategy, [find_coefficient(e)] right after
    [add_term(c, e)] with [c != 0] returns [c] when the key was not there and
    the old value plus [c] when it was; no other key changes. *)
Theorem dict_find_coefficient_after_add_term d c e :
  ne0 c = true ->
  exists d',
    with_dict.add_term d c e = Ok d' /\
    with_dict.find_coefficient d' e
    = Ok (match dict_get d e with Some c0 => add c0 c | None => c end) /\
    (forall e', e' <> e ->
       with_dict.find_coefficient d' e' = with_dict.find_coefficient d e').
Proof.
  intros Hc. eexists. split; [apply dict_add_term_returns|].
  rewrite Hc. unfold with_dict.find_coefficient, dict_getitem. split.
  - destruct (dict_get d e); by rewrite dict_get_setitem.
  - intros e' Hne. destruct (dict_get d e); by rewrite dict_get_setitem_ne.
Qed.

(** X7: after any run of [add_term] calls on an empty polynomial of the
    dict strategy, [find_coefficient(e)] returns what the calls for [e] with
    a non-zero coefficient add up to, in the order of the calls, and raises
    [KeyError] when there was no such call. *)
Theorem dict_find_coefficient_after_calls (calls : list (N * num)) e :
  exists d',
    with_dict.add_items [] calls = Ok d' /\
    with_dict.find_coefficient d' e
    = match accumulated (items calls) e None with
      | Some v => Ok v
      | None => Raise KeyError
      end.
Proof.
  destruct (add_items_returns calls []) as [d' Hrun].
  exists d'. split; [done|].
  unfold with_dict.find_coefficient, dict_getitem.
  by rewrite (add_items_items calls e [] d' Hrun).
Qed.

End StoreRoundTrip.

(** ** How long the binary search runs *)

Section SearchRounds.
Context {num : Type} `{Number num}.
Import with_2d_list.
Implicit Types (terms : list (term num)) (n : N).

(** More fuel does not change an answer. *)
Lemma search_more_fuel fuel terms n : forall (left right : Z) p,
  search fuel terms n left right = Ok p ->
  search (S fuel) terms n left right = Ok p.
Proof.
  induction fuel as [|fuel IH]; intros left right p; [done|].
  intros Hrun. cbn [search] in Hrun |- *.
  destruct (left <=? right); [|done].
  destruct (getitem terms ((left + right) / 2)) as [t| |]; simpl in *;
    [|done..].
  destruct (expo t =? n)%N; [done|].
  destruct (expo t <? n)%N; by apply IH.
Qed.

Lemma search_fuel_le fuel fuel' terms n (left right : Z) p :
  (fuel <= fuel')%nat ->
  search fuel terms n left right = Ok p ->
  search fuel' terms n left right = Ok p.
Proof.
  induction 1 as [|fuel' _ IH]; [done|].
  intros Hrun. by apply search_more_fuel, IH.
Qed.

(** Every probe halves the range: with the range shorter than [2 ^ k], [k]
    probes and one more test of [left <= right] end the loop. *)
Lemma search_halves (k : nat) terms n : forall (left right : Z),
  0 <= left -> right < Z.of_nat (length terms) ->
  right - left + 1 < 2 ^ Z.of_nat k ->
  exists p, search (S k) terms n left right = Ok p.
Proof.
  induction k as [|k IH]; intros left right Hl Hr Hsize.
  - simpl. destruct (Z.leb_spec left right) as [Hle|_]; [|by eexists].
    simpl in Hsize. lia.
  - cbn [search]. destruct (Z.leb_spec left right) as [Hle|_]; [|by eexists].
    pose proof (mid_between left right Hle) as Hmid.
    destruct (getitem_in_range terms ((left + right) / 2)) as (t & _ & ->);
      [lia|].
    simpl. destruct (expo t =? n)%N; [by eexists|].
    rewrite Nat2Z.inj_succ, Z.pow_succ_r in Hsize by lia.
    assert (2 * ((left + right) / 2) <= left + right
            < 2 * ((left + right) / 2) + 2) as Hdiv.
    { pose proof (Z.div_mod (left + right) 2 ltac:(lia)) as Hdm.
      pose proof (Z.mod_pos_bound (left + right) 2 ltac:(lia)). lia. }
    destruct (expo t <? n)%N; apply IH; lia.
Qed.

(** X8: the binary search that [add_term] and [find_coefficient] run on a
    list of [n] terms ends within [floor(log2 n) + 2] tests of
    [left <= right], with the same answer as when it is given one test per
    term. *)
Theorem search_is_logarithmic terms n :
  exists p,
    search (2 + Z.to_nat (Z.log2 (Z.of_nat (length terms)))) terms n 0
           (Z.of_nat (length terms) - 1) = Ok p /\
    search_terms terms n = Ok p.
Proof.
  set (len := Z.of_nat (length terms)).
  destruct (search_halves (S (Z.to_nat (Z.log2 len))) terms n 0 (len - 1))
    as [p Hp]; [lia|lia| |].
  { rewrite Nat2Z.inj_succ, Z2Nat.id by apply Z.log2_nonneg.
    destruct (Z.eq_dec len 0) as [->|Hne]; [done|].
    pose proof (Z.log2_spec len ltac:(lia)). lia. }
  exists p. split; [exact Hp|].
  unfold search_terms. fold len.
  assert (exists q, search (S (length terms)) terms n 0 (len - 1) = Ok q)
    as [q Hq].
  { destruct (search_terms_ends terms n) as
      [(mid & t & Hm & _)|(ins & Hm & _)]; eauto. }
  rewrite Hq. f_equal.
  destruct (Nat.le_ge_cases (S (S (Z.to_nat (Z.log2 len)))) (S (length terms)))
    as [Hle|Hle].
  - pose proof (search_fuel_le _ _ _ _ _ _ _ Hle Hp) as Hq'.
    rewrite Hq in Hq'. by injection Hq'.
  - pose proof (search_fuel_le _ _ _ _ _ _ _ Hle Hq) as Hp'.
    rewrite Hp in Hp'. by injection Hp'.
Qed.

End SearchRounds.

(** ** The two strategies after the same calls; __add__ of with_dict.py *)

#[export] Instance int_ring : RingArith Z.
Proof.
  split; simpl.
  - apply int_exact.
  - intros; lia.
  - intros; lia.
  - intros c Hc. apply negb_false_iff, Z.eqb_eq in Hc. done.
Qed.

Section DictAdd.
Context {num : Type} `{Number num}.
Implicit Types (terms : list (with_2d_list.term num)) (d : list (N * num)).
Implicit Types (c : num) (e : N).

Lemma items_items {A B : Type} (l : list (A * B)) : items (items l) = l.
Proof.
  unfold items. rewrite map_map. rewrite <- (map_id l) at 2.
  apply map_ext. by intros [a b].
Qed.

(** Two dicts that read alike at every key hold the same items. *)
Lemma dict_same_items d1 d2 :
  NoDup (map fst d1) -> NoDup (map fst d2) ->
  (forall e, dict_get d1 e = dict_get d2 e) -> d1 ≡ₚ d2.
Proof.
  intros Hnd1 Hnd2 Hget. apply NoDup_Permutation.
  - by apply (NoDup_fmap_1 fst).
  - by apply (NoDup_fmap_1 fst).
  - intros [e v]. rewrite <- !dict_get_elem_of by done. by rewrite Hget.
Qed.

(** A run of calls with distinct exponents bumps each exponent once. *)
Lemma accumulated_distinct d e (start : option num) :
  NoDup (map fst d) ->
  accumulated (items d) e start = bump_with start (dict_get d e).
Proof.
  revert start. induction d as [|[e1 c1] d IH]; intros start Hnd; [done|].
  apply NoDup_cons in Hnd as [He1 Hnd].
  change (accumulated (items ((e1, c1) :: d)) e start)
    with (accumulated (items d) e
            (if (e1 =? e)%N then bump start c1 else start)).
  rewrite (IH _ Hnd). simpl.
  destruct (N.eqb_spec e1 e) as [->|Hne].
  - rewrite decide_True by done.
    assert (dict_get d e = None) as ->; [|done].
    apply dict_get_absent. intros kv Hin Heq. apply He1.
    rewrite <- Heq. apply list_elem_of_fmap. by exists kv.
  - by rewrite decide_False.
Qed.

(** X9: the same run of [add_term] calls on an empty polynomial leaves the
    two strategies with the same terms: the items of the dict are those of
    the list up to order, and [find_coefficient] of the list returns what
    the dict holds at a key, or 0 where the dict has no such key. *)
Theorem strategies_agree_after_calls (calls : list (num * N)) :
  exists terms' d',
    with_2d_list.add_terms [] calls = Ok terms' /\
    with_dict.add_items [] (items calls) = Ok d' /\
    items terms' ≡ₚ d' /\
    (forall e, with_2d_list.find_coefficient terms' e
               = Ok (default zero (dict_get d' e))).
Proof.
  destruct (add_terms_ascending calls [] ascending_nil)
    as (terms' & Hrun & Hs').
  destruct (add_items_returns (items calls) []) as [d' Hrun'].
  assert (forall e, dict_get (items terms') e = dict_get d' e) as Hget.
  { intros e. rewrite (add_terms_items calls e [] terms' ascending_nil Hrun).
    rewrite (add_items_items (items calls) e [] d' Hrun').
    by rewrite items_items. }
  exists terms', d'. split_and!; [done|done| |].
  - apply dict_same_items; [| |done].
    + rewrite items_keys. by apply ascending_NoDup.
    + apply (add_items_NoDup (items calls) [] d'); [constructor|done].
  - intros e. by rewrite (find_coefficient_items terms' e Hs'), Hget.
Qed.

(** What [a + b] of the dict strategy holds at every key. *)
Lemma dict_add_items d d_others result e :
  NoDup (map fst d) -> NoDup (map fst d_others) ->
  with_dict.__add__ d (with_dict.Polynomial d_others) = Ok result ->
  dict_get result e
  = bump_with (bump_with None (dict_get d e)) (dict_get d_others e).
Proof.
  intros Hnd Hnd'. unfold with_dict.__add__.
  destruct (add_items_returns d []) as [r Hr]. rewrite Hr. simpl.
  intros Hrun. rewrite (add_items_items d_others e r result Hrun).
  rewrite (add_items_items d e [] r Hr). simpl.
  by rewrite (accumulated_distinct d e _ Hnd),
             (accumulated_distinct d_others e _ Hnd').
Qed.

Lemma dict_add_NoDup d d_others result :
  with_dict.__add__ d (with_dict.Polynomial d_others) = Ok result ->
  NoDup (map fst result).
Proof.
  unfold with_dict.__add__.
  destruct (add_items_returns d []) as [r Hr]. rewrite Hr. simpl.
  apply add_items_NoDup. apply (add_items_NoDup d [] r); [constructor|done].
Qed.

(** X10: [a + b] of the dict strategy returns a dict that holds, at every
    key, the non-zero value of [a] at that key bumped by the non-zero value
    of [b]: their sum when both have one (kept even when it is 0), the one
    there is when only one has, and no key at all when neither has.  A key
    stored with value 0 in [a] or [b] counts as missing. *)
Theorem dict_add_holds_the_sums d d_others :
  NoDup (map fst d) -> NoDup (map fst d_others) ->
  exists result,
    with_dict.__add__ d (with_dict.Polynomial d_others) = Ok result /\
    NoDup (map fst result) /\
    forall e, dict_get result e
              = bump_with (bump_with None (dict_get d e)) (dict_get d_others e).
Proof.
  intros Hnd Hnd'.
  destruct (dict_add_returns d d_others) as [result Hadd].
  exists result. split_and!; [done| |].
  - by apply (dict_add_NoDup d d_others).
  - intros e. by apply dict_add_items.
Qed.

(** X11: where [+] on coefficients is commutative, [a + b] and [b + a] of
    the dict strategy hold the same items, in a different order at most. *)
Theorem dict_add_commutes d d_others :
  (forall a b : num, add a b = add b a) ->
  NoDup (map fst d) -> NoDup (map fst d_others) ->
  exists result result',
    with_dict.__add__ d (with_dict.Polynomial d_others) = Ok result /\
    with_dict.__add__ d_others (with_dict.Polynomial d) = Ok result' /\
    result ≡ₚ result'.
Proof.
  intros Hcomm Hnd Hnd'.
  destruct (dict_add_returns d d_others) as [result Hadd].
  destruct (dict_add_returns d_others d) as [result' Hadd'].
  exists result, result'. split_and!; [done|done|].
  apply dict_same_items.
  - by apply (dict_add_NoDup d d_others).
  - by apply (dict_add_NoDup d_others d).
  - intros e.
    rewrite (dict_add_items d d_others result e Hnd Hnd' Hadd).
    rewrite (dict_add_items d_others d result' e Hnd' Hnd Hadd').
    unfold bump_with, bump.
    destruct (dict_get d e) as [a|], (dict_get d_others e) as [b|]; [|done..].
    destruct (ne0 a), (ne0 b); [|done..]. by rewrite Hcomm.
Qed.

End DictAdd.

(** ** evaluate after add_term and after __add__ *)

Section EvaluateSum.
Context {num : Type} `{RingArith num}.
Implicit Types (terms : list (with_2d_list.term num)) (d : list (N * num)).
Implicit Types (c x : num) (e : N).

Lemma total_middle (l1 l2 : list num) (a : num) :
  total (l1 ++ a :: l2) = add (total (l1 ++ l2)) a.
Proof.
  rewrite (total_perm (l1 ++ a :: l2) (a :: l1 ++ l2)).
  - simpl. apply add_comm.
  - by rewrite Permutation_middle.
Qed.

Lemma total_bumped (l1 l2 : list num) (a b : num) :
  total (l1 ++ add a b :: l2) = add (total (l1 ++ a :: l2)) b.
Proof. by rewrite !total_middle, add_assoc. Qed.

(** A coefficient that fails [c != 0] adds nothing to a value. *)
Lemma mul_not_ne0 c (p : num) : ne0 c = false -> mul c p = zero.
Proof. intros Hc. by rewrite (ne0_false c Hc), mul_zero_l. Qed.

Lemma ordered_evaluate_add_term terms c e x :
  exists terms',
    with_2d_list.add_term terms c e = Ok terms' /\
    with_2d_list.evaluate terms' x
    = add (with_2d_list.evaluate terms x) (mul c (pow x e)).
Proof.
  unfold with_2d_list.add_term. destruct (ne0 c) eqn:Hc.
  2:{ exists terms. split; [done|]. by rewrite mul_not_ne0, add_zero_r. }
  destruct (search_terms_ends terms e) as
    [(mid & [c0 e0] & Hm & Hmid & Ht & He)|(ins & Hm & Hins)]; rewrite Hm; simpl.
  - unfold with_2d_list.expo in He. simpl in He. subst e0.
    rewrite (getitem_lookup terms mid (c0, e)); [|lia|done]. simpl.
    rewrite setitem_in_range; [|lia]. eexists. split; [done|].
    rewrite !ordered_evaluate_total, insert_take_drop; [|lia].
    rewrite <- (take_drop_middle terms (Z.to_nat mid) (c0, e) Ht) at 3.
    rewrite !map_app. simpl.
    unfold with_2d_list.coeff, with_2d_list.expo. simpl.
    by rewrite mul_add_l, total_bumped.
  - rewrite list_insert_at_nonneg; [|lia]. eexists. split; [done|].
    rewrite !ordered_evaluate_total.
    rewrite <- (take_drop (Z.to_nat ins) terms) at 3.
    rewrite !map_app. simpl. by rewrite total_middle.
Qed.

Lemma dict_total_setitem d e (c0 c : num) x :
  dict_get d e = Some c0 ->
  total (map (fun t => mul (snd t) (pow x (fst t)))
             (dict_setitem d e (add c0 c)))
  = add (total (map (fun t => mul (snd t) (pow x (fst t))) d))
        (mul c (pow x e)).
Proof.
  induction d as [|[e1 c1] d IH]; simpl; [done|].
  destruct (decide (e1 = e)) as [->|Hne]; simpl.
  - intros [= ->]. rewrite mul_add_l.
    apply (total_bumped [] _ (mul c0 (pow x e)) (mul c (pow x e))).
  - intros Hg. by rewrite (IH Hg), add_assoc.
Qed.

Lemma dict_evaluate_add_term d c e x :
  exists d',
    with_dict.add_term d c e = Ok d' /\
    with_dict.evaluate d' x
    = add (with_dict.evaluate d x) (mul c (pow x e)).
Proof.
  eexists. split; [apply dict_add_term_returns|].
  destruct (ne0 c) eqn:Hc.
  2:{ by rewrite mul_not_ne0, add_zero_r. }
  rewrite !dict_evaluate_total.
  destruct (dict_get d e) as [c0|] eqn:Hg.
  - by apply dict_total_setitem.
  - rewrite dict_setitem_new, map_app, total_app by done. simpl.
    by rewrite add_zero_r.
Qed.

Lemma dict_evaluate_add_items (calls : list (N * num)) x : forall d d',
  with_dict.add_items d calls = Ok d' ->
  with_dict.evaluate d' x
  = add (with_dict.evaluate d x) (with_dict.evaluate calls x).
Proof.
  induction calls as [|[e c] calls IH]; intros d d'; simpl.
  - intros [= <-]. unfold with_dict.evaluate at 3. simpl.
    by rewrite add_zero_r.
  - destruct (dict_evaluate_add_term d c e x) as (d1 & -> & Hev). simpl.
    intros Hrun. rewrite (IH d1 d' Hrun), Hev.
    rewrite !dict_evaluate_total. simpl. by rewrite !add_assoc.
Qed.

(** X12: with exact arithmetic, [add_term(c, e)] raises the value of
    [evaluate(x)] by [c * x ** e], in both strategies and on every term
    collection. *)
Theorem evaluate_after_add_term terms d c e x :
  (exists terms',
     with_2d_list.add_term terms c e = Ok terms' /\
     with_2d_list.evaluate terms' x
     = add (with_2d_list.evaluate terms x) (mul c (pow x e))) /\
  (exists d',
     with_dict.add_term d c e = Ok d' /\
     with_dict.evaluate d' x
     = add (with_dict.evaluate d x) (mul c (pow x e))).
Proof.
  split.
  - apply ordered_evaluate_add_term.
  - apply dict_evaluate_add_term.
Qed.

(** X13: with exact arithmetic, the sum of two polynomials of the dict
    strategy evaluates to the sum of their values:
    [(a + b).evaluate(x) = a.evaluate(x) + b.evaluate(x)]. *)
Theorem dict_evaluate_of_sum d (d_others : list (N * num)) x :
  exists result,
    with_dict.__add__ d (with_dict.Polynomial d_others) = Ok result /\
    with_dict.evaluate result x
    = add (with_dict.evaluate d x) (with_dict.evaluate d_others x).
Proof.
  unfold with_dict.__add__.
  destruct (add_items_returns d []) as [r Hr]. rewrite Hr. simpl.
  destruct (add_items_returns d_others r) as [result Hrun].
  exists result. split; [done|].
  rewrite (dict_evaluate_add_items d_others x r result Hrun).
  rewrite (dict_evaluate_add_items d x [] r Hr).
  change (with_dict.evaluate [] x) with (@zero num _).
  by rewrite add_zero_l.
Qed.

Lemma ordered_evaluate_add_terms (calls : list (num * N)) x :
  forall terms, exists terms',
    with_2d_list.add_terms terms calls = Ok terms' /\
    with_2d_list.evaluate terms' x
    = add (with_2d_list.evaluate terms x) (with_2d_list.evaluate calls x).
Proof.
  induction calls as [|[c e] calls IH]; intros terms; simpl.
  - exists terms. split; [done|].
    change (with_2d_list.evaluate [] x) with (@zero num _).
    by rewrite add_zero_r.
  - destruct (ordered_evaluate_add_term terms c e x) as (terms1 & -> & Hev).
    simpl. destruct (IH terms1) as (terms' & Hrun & Hev').
    exists terms'. split; [done|]. rewrite Hev', Hev.
    rewrite !ordered_evaluate_total. simpl. by rewrite !add_assoc.
Qed.

(** X14: with exact arithmetic, after any run of [add_term] calls on an empty
    polynomial, [evaluate(x)] is the sum of [c * x ** e] over all the calls
    [add_term(c, e)], in both strategies; so the two evaluate alike. *)
Theorem evaluate_after_calls (calls : list (num * N)) x :
  exists terms' d',
    with_2d_list.add_terms [] calls = Ok terms' /\
    with_dict.add_items [] (items calls) = Ok d' /\
    with_2d_list.evaluate terms' x
    = total (map (fun call => mul (fst call) (pow x (snd call))) calls) /\
    with_dict.evaluate d' x = with_2d_list.evaluate terms' x.
Proof.
  destruct (ordered_evaluate_add_terms calls x []) as (terms' & Hrun & Hev).
  destruct (add_items_returns (items calls) []) as [d' Hrun'].
  exists terms', d'. split_and!; [done|done| |].
  - rewrite Hev. change (with_2d_list.evaluate [] x) with (@zero num _).
    by rewrite add_zero_l, ordered_evaluate_total.
  - rewrite (dict_evaluate_add_items (items calls) x [] d' Hrun'), Hev.
    f_equal. rewrite dict_evaluate_total, ordered_evaluate_total.
    unfold items. rewrite map_map. done.
Qed.

End EvaluateSum.

(** ** The loop of __add__ of with_2d_list.py *)

Section MergeLoop.
Context {num : Type} `{Number num}.
Import with_2d_list.

(** X15: on two ascending lists the [while] loop of [__add__] ends with one
    of the cursors at the end of its list, and has by then handed to
    [add_term] the terms of the merge of the two lists up to that point;
    [result] holds those of them whose coefficient is not zero, and the two
    slices [self.terms[i:]] and [other.terms[j:]] are the rest of the
    merge. *)
Theorem merge_loop_result (self other : list (term num)) :
  ascending self -> ascending other ->
  exists emitted i j,
    merge (S (length self + length other)) self other [] 0 0
      = Ok (stored emitted, i, j) /\
    emitted ++ slice_from self i ++ slice_from other j = merged self other /\
    (i = Z.of_nat (length self) \/ j = Z.of_nat (length other)) /\
    0 <= i <= Z.of_nat (length self) /\ 0 <= j <= Z.of_nat (length other).
Proof.
  intros Hs1 Hs2.
  destruct (merge_computes (S (length self + length other)) self other [] 0 0)
    as (emitted & i & j & Hrun & Hi0 & Hj0 & Hm & Hend);
    [done|done|constructor|lia|lia| |lia|].
  { intros t t' Ht. by apply elem_of_nil in Ht. }
  destruct (merge_returns (S (length self + length other)) self other [] 0 0)
    as (r' & i' & j' & Hrun' & Hi & Hj & _); [lia..|].
  rewrite Hrun in Hrun'. injection Hrun' as _ <- <-.
  exists emitted, i, j. split_and!; [done| |done|lia..].
  unfold slice_from.
  destruct (Z.leb_spec 0 i); [|lia]. by destruct (Z.leb_spec 0 j); [|lia].
Qed.

End MergeLoop.

(** ** The constructor *)

Section Constructor.
Import Text.
Local Open Scope string_scope.

Lemma float_of_string_outcome (s : string) :
  (exists v, float_of_string s = Ok v) \/ float_of_string s = Raise ValueError.
Proof.
  unfold float_of_string.
  destruct (match rstrip is_c_space (lstrip is_c_space s) with
            | String "-" r => (true, r)
            | String "+" r => (false, r)
            | _ => (false, rstrip is_c_space (lstrip is_c_space s))
            end) as [negative body].
  destruct (_ || _); [eauto|]. destruct (_ =? _); [eauto|].
  destruct (number body) as [[[m frac] rest]|]; [|by right].
  destruct (exponent_part rest); eauto.
Qed.

Lemma int_of_digits_outcome (s : string) :
  (exists n, int_of_digits s = Ok n) \/ int_of_digits s = Raise ValueError.
Proof.
  unfold int_of_digits. destruct s; [by right|].
  destruct (digits_value _ _); eauto.
Qed.

(** Reading one piece either gives a coefficient and an exponent or raises
    [ValueError]. *)
Lemma parse_term_outcome (piece : string) :
  (exists c e, parse_term piece = Ok (c, e)) \/
  parse_term piece = Raise ValueError.
Proof.
  unfold parse_term.
  assert ((exists c e, (coefficient ← float_of_string (strip piece);
                        Ok (coefficient, 0%N)) = Ok (c, e)) \/
          (coefficient ← float_of_string (strip piece);
           Ok (coefficient, 0%N)) = Raise ValueError) as Hconst.
  { destruct (float_of_string_outcome (strip piece)) as [[v ->]| ->];
      simpl; eauto. }
  destruct (re_match term_pattern (strip piece))
    as [[|group1 [|group2 [|]]]|]; try exact Hconst.
  destruct (float_of_string_outcome group1) as [[v ->]| ->]; simpl;
    [|by right].
  destruct group2 as [|a group2]; [simpl; eauto|].
  destruct (int_of_digits_outcome (String a group2)) as [[n Hn]|Hn];
    rewrite Hn; simpl; eauto.
Qed.

Lemma parse_pieces_ascending (pieces : list string) :
  forall terms : list (with_2d_list.term float),
  with_2d_list.ascending terms ->
  (exists terms', with_2d_list.parse_pieces terms pieces = Ok terms' /\
                  with_2d_list.ascending terms') \/
  with_2d_list.parse_pieces terms pieces = Raise ValueError.
Proof.
  induction pieces as [|piece pieces IH]; intros terms Hs; simpl.
  - left. by exists terms.
  - destruct (parse_term_outcome piece) as [(c & e & ->)| ->]; simpl;
      [|by right].
    destruct (add_term_ascending terms c e Hs) as (terms1 & -> & Hs1).
    simpl. by apply IH.
Qed.

Lemma dict_parse_pieces_NoDup (pieces : list string) :
  forall d : list (N * float),
  NoDup (map fst d) ->
  (exists d', with_dict.parse_pieces d pieces = Ok d' /\
              NoDup (map fst d')) \/
  with_dict.parse_pieces d pieces = Raise ValueError.
Proof.
  induction pieces as [|piece pieces IH]; intros d Hnd; simpl.
  - left. by exists d.
  - destruct (parse_term_outcome piece) as [(c & e & ->)| ->]; simpl;
      [|by right].
    pose proof (dict_add_term_returns d c e) as Hadd.
    rewrite Hadd. simpl. apply IH.
    exact (dict_add_term_NoDup d c e _ Hnd Hadd).
Qed.

Lemma split_before_signs_first (s : string) :
  exists piece rest, split_before_signs s = piece :: rest.
Proof.
  destruct s as [|c s]; simpl; [by eexists _, _|].
  destruct (split_before_signs s); [by eexists _, _|].
  destruct (is_sign c); by eexists _, _.
Qed.

(** X16: the constructor raises [ValueError], in both files, on every
    non-empty string that has no first term: one that is all spaces, or
    whose first character after the spaces is a [+] or a [-] (as in
    ["-3x + 1"]). *)
Theorem init_without_first_term_raises (polynomial_str : string) :
  polynomial_str <> "" ->
  match remove_spaces polynomial_str with
  | EmptyString => True
  | String c _ => is_sign c = true
  end ->
  with_2d_list.__init__ polynomial_str = Raise ValueError /\
  with_dict.__init__ polynomial_str = Raise ValueError.
Proof.
  intros Hne Hfirst.
  assert (exists rest, pieces polynomial_str = "" :: rest) as [rest Hp].
  { unfold pieces. destruct (remove_spaces polynomial_str) as [|c s].
    - by exists [].
    - simpl. rewrite Hfirst.
      destruct (split_before_signs_first s) as (piece & rest & ->).
      by eexists. }
  unfold with_2d_list.__init__, with_dict.__init__.
  unfold with_2d_list.parse_polynomial_string.
  unfold with_dict.parse_polynomial_string. rewrite Hp.
  by destruct polynomial_str.
Qed.

(** X17: the constructor either raises [ValueError] or returns terms with
    pairwise distinct exponents, in the list strategy in strictly ascending
    order; it raises nothing else and always ends. *)
Theorem init_returns_ordered_terms_or_raises (polynomial_str : string) :
  ((exists terms, with_2d_list.__init__ polynomial_str = Ok terms /\
                  with_2d_list.ascending terms /\
                  NoDup (map with_2d_list.expo terms)) \/
   with_2d_list.__init__ polynomial_str = Raise ValueError) /\
  ((exists d, with_dict.__init__ polynomial_str = Ok d /\
              NoDup (map fst d)) \/
   with_dict.__init__ polynomial_str = Raise ValueError).
Proof.
  split.
  - unfold with_2d_list.__init__, with_2d_list.parse_polynomial_string.
    destruct polynomial_str as [|c s].
    + left. exists []. split_and!; [done|constructor|constructor].
    + destruct (parse_pieces_ascending (pieces (String c s)) [] ascending_nil)
        as [(terms & Hrun & Hs)|Hrun]; [left|by right].
      exists terms. split_and!; [done|done|]. by apply ascending_NoDup.
  - unfold with_dict.__init__, with_dict.parse_polynomial_string.
    destruct polynomial_str as [|c s].
    + left. exists []. split; [done|constructor].
    + destruct (dict_parse_pieces_NoDup (pieces (String c s)) []
                  ltac:(constructor)) as [(d & Hrun & Hnd)|Hrun];
        [left|by right].
      by exists d.
Qed.

End Constructor.

(** ** What the parser reads from a well-formed piece *)

Section Monomials.
Import Text.
Local Open Scope string_scope.














Lemma string_app_assoc (s1 s2 s3 : string) :
  (s1 ++ s2) ++ s3 = s1 ++ s2 ++ s3.
Proof. induction s1 as [|c s1 IH]; simpl; [done|]. by rewrite IH. Qed.








End Monomials.

(** ** Printing, then parsing *)

Section PrintParse.
Import Text.
Local Open Scope string_scope.
Context `{Show float}.

Lemma remove_spaces_app (s1 s2 : string) :
  remove_spaces (s1 ++ s2) = remove_spaces s1 ++ remove_spaces s2.
Proof.
  induction s1 as [|c s1 IH]; simpl; [done|].
  destruct (c =? " ")%char; simpl; by rewrite IH.
Qed.

Lemma remove_spaces_join (l : list string) :
  remove_spaces (join " + " l) = join "+" (map remove_spaces l).
Proof.
  induction l as [|a [|b l] IH]; [done|done|].
  change (join " + " (a :: b :: l)) with (a ++ " + " ++ join " + " (b :: l)).
  change (join "+" (map remove_spaces (a :: b :: l)))
    with (remove_spaces a ++ "+" ++ join "+" (map remove_spaces (b :: l))).
  by rewrite !remove_spaces_app, IH.
Qed.

Lemma join_cons_app (sep a : string) (l : list string) :
  l <> [] -> join sep (a :: l) = a ++ sep ++ join sep l.
Proof. by destruct l. Qed.

Lemma join_app_cons (sep : string) (l1 l2 : list string) (a : string) :
  l1 <> [] ->
  join sep (l1 ++ a :: l2)%list = join sep l1 ++ sep ++ join sep (a :: l2).
Proof.
  induction l1 as [|b l1 IH]; [done|]. intros _.
  destruct l1 as [|b' l1].
  - simpl app. by rewrite join_cons_app.
  - change ((b :: b' :: l1) ++ a :: l2)%list
      with (b :: ((b' :: l1) ++ a :: l2))%list.
    rewrite join_cons_app by done. rewrite IH by done.
    rewrite (join_cons_app sep b (b' :: l1)) by done.
    by rewrite !string_app_assoc.
Qed.

(** Cutting a string that goes on with a sign: the pieces of the part
    before, then those of the part from the sign on. *)
Lemma split_before_signs_app (s1 : string) (c : ascii) (s2 : string) :
  is_sign c = true ->
  split_before_signs (s1 ++ String c s2)
  = (split_before_signs s1 ++ tail (split_before_signs (String c s2)))%list.
Proof.
  intros Hc. induction s1 as [|x s1 IH].
  - simpl. rewrite Hc.
    by destruct (split_before_signs_first s2) as (p & ps & ->).
  - change (String x s1 ++ String c s2) with (String x (s1 ++ String c s2)).
    cbn [split_before_signs]. rewrite IH.
    destruct (split_before_signs_first s1) as (p & ps & ->). simpl.
    by destruct (is_sign x).
Qed.

(** A term list that prints a leading minus somewhere gives a piece that is
    empty or a bare [+]. *)
Lemma pieces_of_minus (l1 l2 : list string) (rest : string) :
  let s := join " + " (l1 ++ String "-" rest :: l2)%list in
  s <> "" /\ ("" ∈ pieces s \/ "+" ∈ pieces s).
Proof.
  intros s. assert (remove_spaces s
                    = join "+" (map remove_spaces l1
                                ++ String "-" (remove_spaces rest)
                                   :: map remove_spaces l2)%list) as Hrs.
  { unfold s. by rewrite remove_spaces_join, map_app. }
  assert (exists z, join "+" (String "-" (remove_spaces rest)
                              :: map remove_spaces l2) = String "-" z)
    as [z Hz].
  { destruct (map remove_spaces l2); by eexists. }
  split.
  - intros Hs. rewrite Hs in Hrs. simpl in Hrs.
    destruct (map remove_spaces l1) as [|b l1'].
    + simpl app in Hrs. by rewrite Hz in Hrs.
    + rewrite join_app_cons in Hrs by done. rewrite Hz in Hrs.
      by destruct (join "+" (b :: l1')).
  - unfold pieces. rewrite Hrs.
    destruct (map remove_spaces l1) as [|b l1'].
    + left. simpl app. rewrite Hz. cbn [split_before_signs].
      destruct (split_before_signs_first z) as (p & ps & ->). left.
    + right. rewrite join_app_cons by done. rewrite Hz.
      change ("+" ++ String "-" z) with (String "+" (String "-" z)).
      rewrite split_before_signs_app by done.
      apply elem_of_app. right. cbn [split_before_signs].
      destruct (split_before_signs_first z) as (p & ps & ->).
      simpl. left.
Qed.

(** One piece that cannot be read makes the whole parse raise. *)
Lemma parse_pieces_bad_piece (pieces : list string) (piece : string) :
  piece ∈ pieces -> parse_term piece = Raise ValueError ->
  (forall terms, with_2d_list.parse_pieces terms pieces = Raise ValueError) /\
  (forall d, with_dict.parse_pieces d pieces = Raise ValueError).
Proof.
  intros Hin Hbad. induction pieces as [|p ps IH].
  { by apply elem_of_nil in Hin. }
  assert (parse_term p = Raise ValueError \/
          (exists c e, parse_term p = Ok (c, e)) /\ piece ∈ ps) as [Hp|[Hp Hin']].
  { apply elem_of_cons in Hin as [->|Hin]; [by left|].
    destruct (parse_term_outcome p) as [Hok|Hr]; [right|by left]. done. }
  - split; intros ?; simpl; by rewrite Hp.
  - destruct Hp as (c & e & Hp). destruct (IH Hin') as [IH1 IH2].
    split.
    + intros terms. simpl. rewrite Hp. simpl.
      destruct (add_term_returns terms c e) as [terms' ->]. simpl. apply IH1.
    + intros d. simpl. rewrite Hp. simpl.
      pose proof (dict_add_term_returns d c e) as Hadd. rewrite Hadd. simpl.
      apply IH2.
Qed.

Lemma init_bad_piece (s piece : string) :
  s <> "" -> piece ∈ pieces s -> parse_term piece = Raise ValueError ->
  with_2d_list.__init__ s = Raise ValueError /\
  with_dict.__init__ s = Raise ValueError.
Proof.
  intros Hne Hin Hbad.
  destruct (parse_pieces_bad_piece _ _ Hin Hbad) as [H1 H2].
  unfold with_2d_list.__init__, with_dict.__init__.
  unfold with_2d_list.parse_polynomial_string.
  unfold with_dict.parse_polynomial_string.
  destruct s; [done|]. by rewrite H1, H2.
Qed.

(** X19: a polynomial with a coefficient that prints with a leading minus
    is not read back from its own printed form: the constructor raises
    [ValueError] on the string that [__str__] returns, in both files. *)
Theorem printed_minus_is_not_parsed (terms : list (with_2d_list.term float))
    (d : list (N * float)) (t : with_2d_list.term float) (kv : N * float)
    (rest rest' : string) :
  t ∈ terms -> str (with_2d_list.coeff t) = String "-" rest ->
  kv ∈ d -> str (snd kv) = String "-" rest' ->
  with_2d_list.__init__ (with_2d_list.__str__ terms) = Raise ValueError /\
  with_dict.__init__ (with_dict.__str__ d) = Raise ValueError.
Proof.
  intros Ht Hstr Hkv Hstr'. split.
  - unfold with_2d_list.__str__.
    set (fmt := fun t : with_2d_list.term float =>
                  if (0 <? with_2d_list.expo t)%N
                  then str (with_2d_list.coeff t) ++ "x^"
                       ++ str_exp (with_2d_list.expo t)
                  else str (with_2d_list.coeff t)).
    assert (exists r, fmt t = String "-" r) as [r Hr].
    { unfold fmt. rewrite Hstr. destruct (0 <? _)%N; by eexists. }
    assert (fmt t ∈ rev (map fmt terms)) as Hin.
    { apply list_elem_of_In. apply -> in_rev. apply in_map.
      by apply list_elem_of_In. }
    apply list_elem_of_split in Hin as (l1 & l2 & ->). rewrite Hr.
    destruct (pieces_of_minus l1 l2 r) as [Hne [Hp|Hp]].
    + by apply (init_bad_piece _ "" Hne Hp).
    + by apply (init_bad_piece _ "+" Hne Hp).
  - unfold with_dict.__str__.
    set (fmt := fun '((e, c) : N * float) =>
                  if (0 <? e)%N then str c ++ "x^" ++ str_exp e else str c).
    assert (exists r, fmt kv = String "-" r) as [r Hr].
    { destruct kv as [e c]. simpl in *. rewrite Hstr'.
      destruct (0 <? e)%N; by eexists. }
    assert (fmt kv ∈ map fmt d) as Hin.
    { apply list_elem_of_fmap. by exists kv. }
    apply list_elem_of_split in Hin as (l1 & l2 & ->). rewrite Hr.
    destruct (pieces_of_minus l1 l2 r) as [Hne [Hp|Hp]].
    + by apply (init_bad_piece _ "" Hne Hp).
    + by apply (init_bad_piece _ "+" Hne Hp).
Qed.

End PrintParse.

(** ** The pieces the parser cuts a string into *)

Section Pieces.
Import Text.
Local Open Scope string_scope.

Lemma split_before_signs_shape (s : string) :
  String.concat "" (split_before_signs s) = s /\
  Forall (fun piece =>
            match piece with
            | EmptyString => True
            | String _ rest => all_chars (fun c => negb (is_sign c)) rest = true
            end) (split_before_signs s) /\
  Forall (fun piece =>
            match piece with
            | EmptyString => False
            | String c _ => is_sign c = true
            end) (tail (split_before_signs s)) /\
  match split_before_signs s with
  | first :: _ => all_chars (fun c => negb (is_sign c)) first = true
  | [] => False
  end.
Proof.
  induction s as [|c s (Hcat & Hin & Hhd & Hfirst)]; [by repeat constructor|].
  cbn [split_before_signs].
  destruct (split_before_signs s) as [|p ps]; [done|].
  apply Forall_cons in Hin as [_ Hps].
  assert (String.concat "" (String c p :: ps)
          = String c (String.concat "" (p :: ps))) as Hcons.
  { by destruct ps. }
  destruct (is_sign c) eqn:Hc.
  - split_and!.
    + change (String.concat "" ("" :: String c p :: ps))
        with (String.concat "" (String c p :: ps)).
      by rewrite Hcons, Hcat.
    + by repeat constructor.
    + by constructor.
    + done.
  - split_and!.
    + by rewrite Hcons, Hcat.
    + by constructor.
    + exact Hhd.
    + simpl. by rewrite Hc, Hfirst.
Qed.

(** X20: the parser cuts the string, spaces removed, without losing a
    character: the pieces put together again are that string; every piece
    but the first starts with the [+] or [-] it was cut at, and no piece has
    a sign anywhere else. *)
Theorem pieces_keep_every_character (polynomial_str : string) :
  String.concat "" (pieces polynomial_str) = remove_spaces polynomial_str /\
  all_chars (fun c => negb (Ascii.eqb c " ")) (remove_spaces polynomial_str)
  = true /\
  Forall (fun piece =>
            match piece with
            | EmptyString => True
            | String _ rest => all_chars (fun c => negb (is_sign c)) rest = true
            end) (pieces polynomial_str) /\
  Forall (fun piece =>
            match piece with
            | EmptyString => False
            | String c _ => is_sign c = true
            end) (tail (pieces polynomial_str)).
Proof.
  destruct (split_before_signs_shape (remove_spaces polynomial_str))
    as (Hcat & Hin & Hhd & _).
  split_and!; [exact Hcat| |exact Hin|exact Hhd].
  clear Hcat Hin Hhd.
  induction polynomial_str as [|c s IH]; simpl; [done|].
  destruct (Ascii.eqb c " ") eqn:Hc; [done|]. simpl. by rewrite Hc.
Qed.

End Pieces.

(** ** Instances of the properties above on small polynomials *)

Section StoreWitnesses.
Import with_2d_list.
Local Open Scope Z_scope.

Lemma find_coefficient_after_add_term_witness :
  exists terms',
    with_2d_list.add_term [(3, 1%N); (5, 2%N)] 4 2%N = Ok terms' /\
    with_2d_list.find_coefficient terms' 2%N = Ok 9.
Proof.
  destruct (find_coefficient_after_add_term (num := Z)
              [(3, 1%N); (5, 2%N)] 4 2%N)
    as (terms' & Hadd & _ & Hold).
  - by_decide.
  - reflexivity.
  - exists terms'. split; [exact Hadd|]. exact (Hold 1%nat 5 eq_refl).
Defined.

Lemma add_term_leaves_other_exponents_witness :
  with_2d_list.find_coefficient [(3, 1%N); (9, 2%N)] 1%N
  = with_2d_list.find_coefficient [(3, 1%N); (5, 2%N)] 1%N.
Proof.
  apply (add_term_leaves_other_exponents (num := Z)
           [(3, 1%N); (5, 2%N)] 4 2%N).
  - by_decide.
  - reflexivity.
  - lia.
Defined.

(** The list is not ascending here. *)
Lemma add_term_inserts_new_exponent_witness :
  exists terms',
    with_2d_list.add_term [(5, 4%N); (3, 1%N)] 7 2%N = Ok terms' /\
    terms' ≡ₚ [(7, 2%N); (5, 4%N); (3, 1%N)] /\
    length terms' = 3%nat.
Proof.
  refine (add_term_inserts_new_exponent (num := Z)
            [(5, 4%N); (3, 1%N)] 7 2%N _ _).
  - reflexivity.
  - by_decide.
Defined.

Lemma find_coefficient_of_stored_term_witness :
  with_2d_list.find_coefficient [(3, 1%N); (5, 2%N); (8, 7%N)] 7%N = Ok 8.
Proof.
  refine (find_coefficient_of_stored_term (num := Z)
            [(3, 1%N); (5, 2%N); (8, 7%N)] 7%N 2%nat 8 _ _).
  - by_decide.
  - reflexivity.
Defined.

Lemma merge_loop_result_witness :
  exists emitted i j,
    merge 5 [(1, 0%N); (2, 3%N)] [(-2, 3%N); (5, 9%N)] [] 0 0
      = Ok (stored emitted, i, j) /\
    emitted ++ slice_from [(1, 0%N); (2, 3%N)] i
            ++ slice_from [(-2, 3%N); (5, 9%N)] j
    = merged [(1, 0%N); (2, 3%N)] [(-2, 3%N); (5, 9%N)] /\
    (i = 2 \/ j = 2) /\ 0 <= i <= 2 /\ 0 <= j <= 2.
Proof.
  refine (merge_loop_result (num := Z)
            [(1, 0%N); (2, 3%N)] [(-2, 3%N); (5, 9%N)] _ _).
  - by_decide.
  - by_decide.
Defined.

Lemma dict_find_coefficient_after_add_term_witness :
  exists d',
    with_dict.add_term [(2%N, 5); (1%N, 3)] 4 2%N = Ok d' /\
    with_dict.find_coefficient d' 2%N = Ok 9 /\
    (forall e', e' <> 2%N ->
       with_dict.find_coefficient d' e'
       = with_dict.find_coefficient [(2%N, 5); (1%N, 3)] e').
Proof.
  refine (dict_find_coefficient_after_add_term (num := Z)
            [(2%N, 5); (1%N, 3)] 4 2%N _).
  reflexivity.
Defined.

Lemma dict_add_holds_the_sums_witness :
  exists result,
    with_dict.__add__ [(1%N, 3); (2%N, 5)]
      (with_dict.Polynomial [(2%N, -5); (4%N, 1)]) = Ok result /\
    NoDup (map fst result) /\
    forall e, dict_get result e
              = bump_with (bump_with None (dict_get [(1%N, 3); (2%N, 5)] e))
                          (dict_get [(2%N, -5); (4%N, 1)] e).
Proof.
  refine (dict_add_holds_the_sums (num := Z)
            [(1%N, 3); (2%N, 5)] [(2%N, -5); (4%N, 1)] _ _).
  - by_decide.
  - by_decide.
Defined.

Lemma dict_add_commutes_witness :
  exists result result',
    with_dict.__add__ [(1%N, 3); (2%N, 5)]
      (with_dict.Polynomial [(2%N, -5); (4%N, 1)]) = Ok result /\
    with_dict.__add__ [(2%N, -5); (4%N, 1)]
      (with_dict.Polynomial [(1%N, 3); (2%N, 5)]) = Ok result' /\
    result ≡ₚ result'.
Proof.
  refine (dict_add_commutes (num := Z)
            [(1%N, 3); (2%N, 5)] [(2%N, -5); (4%N, 1)] _ _ _).
  - intros a b. simpl. lia.
  - by_decide.
  - by_decide.
Defined.

Lemma evaluate_after_add_term_witness :
  (exists terms',
     with_2d_list.add_term [(3, 1%N); (5, 2%N)] (-5) 2%N = Ok terms' /\
     with_2d_list.evaluate terms' 10 = 530 + -5 * 10 ^ 2) /\
  (exists d',
     with_dict.add_term [(2%N, 5); (1%N, 3)] (-5) 2%N = Ok d' /\
     with_dict.evaluate d' 10 = 530 + -5 * 10 ^ 2).
Proof.
  exact (evaluate_after_add_term (num := Z)
           [(3, 1%N); (5, 2%N)] [(2%N, 5); (1%N, 3)] (-5) 2%N 10).
Defined.

Lemma dict_evaluate_of_sum_witness :
  exists result,
    with_dict.__add__ [(1%N, 3); (2%N, 5)]
      (with_dict.Polynomial [(2%N, -5); (4%N, 1)]) = Ok result /\
    with_dict.evaluate result 10 = 530 + 9500.
Proof.
  exact (dict_evaluate_of_sum (num := Z)
           [(1%N, 3); (2%N, 5)] [(2%N, -5); (4%N, 1)] 10).
Defined.

Lemma evaluate_after_calls_witness :
  exists terms' d',
    with_2d_list.add_terms [] [(2, 8%N); (30, 9%N); (3, 1%N); (-2, 8%N)]
      = Ok terms' /\
    with_dict.add_items [] [(8%N, 2); (9%N, 30); (1%N, 3); (8%N, -2)]
      = Ok d' /\
    with_2d_list.evaluate terms' 2
    = total [2 * 2 ^ 8; 30 * 2 ^ 9; 3 * 2 ^ 1; -2 * 2 ^ 8] /\
    with_dict.evaluate d' 2 = with_2d_list.evaluate terms' 2.
Proof.
  exact (evaluate_after_calls (num := Z)
           [(2, 8%N); (30, 9%N); (3, 1%N); (-2, 8%N)] 2).
Defined.

End StoreWitnesses.

Section ParserWitnesses.
Import Text.
Local Open Scope string_scope.

Lemma init_without_first_term_raises_witness :
  with_2d_list.__init__ "-3x + 1" = Raise ValueError /\
  with_dict.__init__ "-3x + 1" = Raise ValueError.
Proof.
  refine (init_without_first_term_raises "-3x + 1" _ _).
  - discriminate.
  - reflexivity.
Defined.


(** With a printer that writes [-3.0] for the float -3, the string that
    [__str__] returns for the one term [[-3.0, 1]] is [-3.0x^1]. *)
Lemma printed_minus_is_not_parsed_witness :
  let show := {| str := fun c : float =>
                          if (c =? -3)%float then "-3.0" else "0.0" |} in
  with_2d_list.__init__ (with_2d_list.__str__ [((-3)%float, 1%N)])
  = Raise ValueError /\
  with_dict.__init__ (with_dict.__str__ [(1%N, (-3)%float)])
  = Raise ValueError.
Proof.
  intros show.
  refine (printed_minus_is_not_parsed (H := show)
            [((-3)%float, 1%N)] [(1%N, (-3)%float)]
            ((-3)%float, 1%N) (1%N, (-3)%float) "3.0" "3.0" _ _ _ _).
  - apply list_elem_of_here.
  - reflexivity.
  - apply list_elem_of_here.
  - reflexivity.
Defined.

End ParserWitnesses.
